(** * UniSim Live Pressure Viewer: a shallow embedding of [main.py]

    The program is a Tk application around a COM automation client.  The
    embedding keeps three layers apart:

    - numbers: Python floats are IEEE binary64 and the plotted arrays are
      [np.float32], both represented by [spec_float] with the operations of
      [SpecFloat] at precision 53 resp. 24;
    - the outside world ([World]): platform, presence of pywin32, the file
      system observation used by the layout, and the COM server, given as an
      oracle answering the n-th automation call;
    - the program state: the connector, the chart windows, the canvas and the
      Tk runtime ([Sys]: the trace of effects, the number of COM calls made,
      the pending [after] callbacks).

    Calls into Tk, PIL and matplotlib are taken to return normally; what they
    are asked to do is recorded in the state and in the trace. *)

From Stdlib Require Import ZArith String List Floats.SpecFloat.
From stdpp Require Import gmap strings list fin_maps.

Local Open Scope string_scope.
Local Open Scope list_scope.

(** ** Floating point numbers *)

Abbreviation float := spec_float.

Module F.
(** [float(z)] for a Python int, and an int operand promoted to binary64. *)
Definition of_int (z : Z) : float := binary_normalize 53 1024 z 0 false.

(** The binary64 literal written in decimal as the fraction [n/d]
    (0.99 is [lit 99 100], 1e-6 is [lit 1 1000000]): the double nearest
    to the quotient. *)
Definition lit (n d : Z) : float := SFdiv 53 1024 (of_int n) (of_int d).

(** Conversion to [np.float32], round to nearest even, overflow to inf. *)
Definition to_f32 (v : float) : float :=
  match v with
  | S754_finite s m e => binary_normalize 24 128 (cond_Zopp s (Zpos m)) e s
  | _ => v
  end.

(** Promotion to binary64, which is exact.  The comparisons of [SpecFloat]
    compare exponent fields, so both operands must be normalised for one
    format. *)
Definition to_f64 (v : float) : float :=
  match v with
  | S754_finite s m e => binary_normalize 53 1024 (cond_Zopp s (Zpos m)) e s
  | _ => v
  end.

Definition is_nan (v : float) : bool :=
  match v with S754_nan => true | _ => false end.

Definition zero : float := S754_zero false.

Definition mul64 (a b : float) : float := SFmul 53 1024 a b.

Definition ltb (a b : float) : bool := SFltb a b.
Definition gtb (a b : float) : bool := SFltb b a.
Definition leb (a b : float) : bool := SFleb a b.
Definition geb (a b : float) : bool := SFleb b a.
Definition eqb (a b : float) : bool := SFeqb a b.
End F.

(** ** NumPy scalars

    [np.array(..., dtype=np.float32)] yields binary32 elements.  An
    operation between an [np.float32] scalar and a Python number is carried
    out in binary32 by NumPy 2 (NEP 50: the Python number is converted to the
    array scalar's type) and in binary64 by NumPy 1.  The source does not pin
    the version, so the rule is a parameter of the world. *)

Inductive numpy_promotion := NEP50 | Legacy.

Module np.
Definition prec (r : numpy_promotion) : Z :=
  match r with NEP50 => 24 | Legacy => 53 end%Z.
Definition emax (r : numpy_promotion) : Z :=
  match r with NEP50 => 128 | Legacy => 1024 end%Z.
(** the Python operand as the operation sees it *)
Definition weak (r : numpy_promotion) (c : float) : float :=
  match r with NEP50 => F.to_f32 c | Legacy => c end.

Definition sub r (a c : float) : float := SFsub (prec r) (emax r) a (weak r c).
Definition add r (a c : float) : float := SFadd (prec r) (emax r) a (weak r c).
Definition mul r (a c : float) : float := SFmul (prec r) (emax r) a (weak r c).

(** [np.array(d, dtype=np.float32)] *)
Definition array (d : list float) : list float := F.to_f32 <$> d.

(** [np.minimum] / [np.maximum] on two scalars: the first operand is kept
    when it compares below (above) or equal, or when it is a NaN. *)
Definition minimum (a b : float) : float :=
  if F.leb a b || F.is_nan a then a else b.
Definition maximum (a b : float) : float :=
  if F.geb a b || F.is_nan a then a else b.

(** [np.min] / [np.max]: a left to right reduction; undefined (raises) on
    an empty array. *)
Definition min (a : list float) : option float :=
  match a with [] => None | v :: a' => Some (fold_left minimum a' v) end.
Definition max (a : list float) : option float :=
  match a with [] => None | v :: a' => Some (fold_left maximum a' v) end.
End np.

(** Python's builtin [max(0, v)]: starts from 0 and takes [v] when [v > 0]. *)
Definition py_max0 (v : float) : float :=
  if F.gtb v F.zero then v else F.zero.

(** ** [collections.deque(maxlen=n)] *)

(** [d.append(v)]: the element is added on the right and, when the bound is
    exceeded, one element is removed on the left. *)
Definition deque_append {A} (maxlen : nat) (d : list A) (v : A) : list A :=
  let d' := d ++ [v] in
  if (maxlen <? length d')%nat then drop 1 d' else d'.

(** ** Configuration *)

Definition INLET_STREAM : string := "Inlet".
Definition OUTLET_STREAM : string := "Outlet".
Definition MAX_POINTS : nat := 1200.
Definition UPDATE_MS : Z := 500.

(** Paths are kept as the list of components given to [os.path.join]. *)
Definition path := list string.

(** ** The outside world *)

Inductive outcome (A : Type) : Type :=
| Returns (a : A)
| Raises (msg : string).
Arguments Returns {A} a.
Arguments Raises {A} msg.

(** The automation calls the program makes.  A stream object is identified by
    the name it was resolved with. *)
Inductive com_call :=
| Dispatch (progid : string)        (* win32com.client.Dispatch(progid) *)
| SetAppVisible                     (* app.Visible = True *)
| SimulationCases_Open (p : path)   (* app.SimulationCases.Open(p) *)
| SetSimVisible                     (* sim.Visible = 1 *)
| Flowsheet                         (* sim.Flowsheet *)
| MaterialStreams_Item (name : string)
| PressureValue (name : string)     (* float(stream.PressureValue) *)
| GetTime                           (* float(sim.Solver.Integrator.GetTime()) *)
| SetIsRunning (v : Z).             (* sim.Solver.Integrator.IsRunning = v *)

#[global] Instance com_call_eq_dec : EqDecision com_call.
Proof. unfold path. solve_decision. Defined.

Record World := {
  platform : string;                (* sys.platform *)
  win32com : bool;                  (* import win32com.client succeeded *)
  BASE_PATH : string;
  numpy : numpy_promotion;
  winfo0 : Z * Z;                   (* canvas size seen by the first layout *)
  png0 : bool;                      (* os.path.exists(IMAGE_PATH), then *)
  (** the answer of the server to the n-th call: [None] when the call
      returns, [Some msg] when it raises an exception with [str(e) = msg] *)
  com_step : nat -> com_call -> option string;
  (** the same for calls that read a number; [Raises] covers a failing call
      as well as a failing [float(...)] *)
  com_read : nat -> com_call -> outcome float
}.

Definition SIM_PATH (w : World) : path :=
  [BASE_PATH w; "assets"; "Arbitrary_Unit.usc"].
Definition IMAGE_PATH (w : World) : path :=
  [BASE_PATH w; "assets"; "compressor_map.png"].

(** ** Effects and the Tk runtime *)

(** An argument of [print]: a string, or a path built by [os.path.join]. *)
Inductive printed :=
| text (s : string)
| joined (p : path).

Inductive effect :=
| print (args : list printed)
| Com (c : com_call)
| showerror (title msg : string)
| showinfo (title msg : string)
| Tk (title : string)                          (* the main window *)
| Toplevel (k : nat) (title : string)          (* chart window k *)
| set_xlim (k : nat) (lo hi : float)
| set_ylim (k : nat) (lo hi : float)
| set_data (k : nat) (xs ys : list float)
| draw_idle (k : nat)
| after (k : nat) (ms : Z) (id : nat)          (* self.after(ms, self._update) *)
| after_cancel (id : nat)
| destroy (k : nat)
| callback_exception (msg : string).           (* Tk reports it and goes on *)

Record Sys := {
  trace : list effect;
  ncom : nat;                       (* automation calls made so far *)
  timers : gmap nat nat;            (* pending after-callback id -> window *)
  next_after : nat
}.

Definition emit (e : effect) (s : Sys) : Sys :=
  {| trace := trace s ++ [e]; ncom := ncom s;
     timers := timers s; next_after := next_after s |}.

(** One automation call: it is logged, counted and answered by the world. *)
Definition called (c : com_call) (s : Sys) : Sys :=
  {| trace := trace s ++ [Com c]; ncom := S (ncom s);
     timers := timers s; next_after := next_after s |}.

Definition com_do (w : World) (c : com_call) (s : Sys) : outcome unit * Sys :=
  match com_step w (ncom s) c with
  | None => (Returns tt, called c s)
  | Some msg => (Raises msg, called c s)
  end.

Definition com_get (w : World) (c : com_call) (s : Sys) : outcome float * Sys :=
  (com_read w (ncom s) c, called c s).

(** [widget.after(ms, callback)]: a fresh id is queued for window [k]. *)
Definition tk_after (k : nat) (ms : Z) (s : Sys) : nat * Sys :=
  let id := next_after s in
  (id, {| trace := trace s ++ [after k ms id]; ncom := ncom s;
          timers := <[id := k]> (timers s); next_after := S id |}).

Definition tk_after_cancel (id : nat) (s : Sys) : Sys :=
  {| trace := trace s ++ [after_cancel id]; ncom := ncom s;
     timers := delete id (timers s); next_after := next_after s |}.

(** The event loop takes a due callback off the queue before running it. *)
Definition tk_take (id : nat) (s : Sys) : Sys :=
  {| trace := trace s; ncom := ncom s;
     timers := delete id (timers s); next_after := next_after s |}.

(** ** UniSim connector *)

(** The bound methods handed to a chart: [self.us.sim_time] and so on. *)
Inductive getter := us_sim_time | us_inlet_pressure | us_outlet_pressure.

Module UniSimConnector.
(** An attribute that was never assigned is [None]; a COM object is
    identified by what it was obtained from. *)
Record t := {
  connected : bool;
  app : option string;
  sim : option path;
  inlet : option string;
  outlet : option string
}.

Definition PROGID : string := "UniSimDesign.Application".

Definition blank : t :=
  {| connected := false; app := None; sim := None;
     inlet := None; outlet := None |}.

(** A statement of the [try] block that calls the server.  When it raises,
    the handler prints the message and the constructor ends with the
    attributes assigned so far. *)
Definition attempt (w : World) (c : com_call) (self : t) (s : Sys)
    (rest : Sys -> t * Sys) : t * Sys :=
  match com_do w c s with
  | (Returns _, s') => rest s'
  | (Raises e, s') =>
      (self, emit (print [text "UniSim connection failed:"; text e]) s')
  end.

Definition __init__ (w : World) (s : Sys) : t * Sys :=
  let self := blank in
  if negb (win32com w) then (self, s) else
  let s := emit (print [text "Connecting to UniSim …"]) s in
  attempt w (Dispatch PROGID) self s (fun s =>
  let self := {| connected := false; app := Some PROGID; sim := None;
                 inlet := None; outlet := None |} in
  attempt w SetAppVisible self s (fun s =>
  let s := emit (print [text "Opening:"; joined (SIM_PATH w)]) s in
  attempt w (SimulationCases_Open (SIM_PATH w)) self s (fun s =>
  let self := {| connected := false; app := Some PROGID;
                 sim := Some (SIM_PATH w); inlet := None; outlet := None |} in
  attempt w SetSimVisible self s (fun s =>
  attempt w Flowsheet self s (fun s =>
  attempt w (MaterialStreams_Item INLET_STREAM) self s (fun s =>
  let self := {| connected := false; app := Some PROGID;
                 sim := Some (SIM_PATH w); inlet := Some INLET_STREAM;
                 outlet := None |} in
  attempt w (MaterialStreams_Item OUTLET_STREAM) self s (fun s =>
  let self := {| connected := true; app := Some PROGID;
                 sim := Some (SIM_PATH w); inlet := Some INLET_STREAM;
                 outlet := Some OUTLET_STREAM |} in
  (self, emit (print [text "UniSim connected."]) s)))))))).

Definition no_attribute (a : string) : string :=
  "'UniSimConnector' object has no attribute '" +:+ a +:+ "'".

Definition inlet_pressure (w : World) (self : t) (s : Sys) : outcome float * Sys :=
  match inlet self with
  | Some name => com_get w (PressureValue name) s
  | None => (Raises (no_attribute "inlet"), s)
  end.

Definition outlet_pressure (w : World) (self : t) (s : Sys) : outcome float * Sys :=
  match outlet self with
  | Some name => com_get w (PressureValue name) s
  | None => (Raises (no_attribute "outlet"), s)
  end.

Definition sim_time (w : World) (self : t) (s : Sys) : outcome float * Sys :=
  match sim self with
  | Some _ => com_get w GetTime s
  | None => (Raises (no_attribute "sim"), s)
  end.

Definition set_running (w : World) (self : t) (v : Z) (s : Sys) : outcome unit * Sys :=
  if connected self then
    match sim self with
    | Some _ => com_do w (SetIsRunning v) s
    | None => (Raises (no_attribute "sim"), s)
    end
  else (Returns tt, s).

Definition start (w : World) (self : t) := set_running w self 1.
Definition stop (w : World) (self : t) := set_running w self 0.

(** Calling a bound method kept as [t_get] / [y_get]. *)
Definition call (w : World) (self : t) (g : getter) : Sys -> outcome float * Sys :=
  match g with
  | us_sim_time => sim_time w self
  | us_inlet_pressure => inlet_pressure w self
  | us_outlet_pressure => outlet_pressure w self
  end.
End UniSimConnector.

(** ** Live-plot window *)

(** [ttk.Scale(from_=200, to=3000, variable=self.interval)]: the widget keeps
    the value it writes to its variable within its range, and
    [IntVar.get()] reads it back as an integer. *)
Definition SCALE_FROM : Z := 200.
Definition SCALE_TO : Z := 3000.
Definition scale_set (v : Z) : Z := Z.max SCALE_FROM (Z.min SCALE_TO v).

Module LivePlot.
Record t := {
  title : string;
  y_get : getter;
  t_get : getter;
  interval : Z;
  x : list float;                          (* deque(maxlen=MAX_POINTS) *)
  y : list float;
  _after_id : option nat;
  current_ymin : option float;
  current_ymax : option float;
  xlim : option (float * float);           (* ax.get_xlim(), once set *)
  ylim : option (float * float);           (* ax.get_ylim(), once set *)
  line : list float * list float           (* as last given to line.set_data *)
}.

(** The constants of [_update].  The axes keep their limits as binary64 and
    [get_ylim] returns them; the limits are taken to be kept as given
    (matplotlib widens an empty interval and rejects NaN and infinities). *)
Definition sixty : float := F.of_int 60.
Definition c1em6 : float := F.lit 1 1000000.
Definition c0_99 : float := F.lit 99 100.
Definition c1_01 : float := F.lit 101 100.
Definition c0_98 : float := F.lit 98 100.
Definition c1_02 : float := F.lit 102 100.

(** The [try] block: both getters, the time first. *)
Definition poll (w : World) (us : UniSimConnector.t) (self : t) (s : Sys)
    : outcome (float * float) * Sys :=
  match UniSimConnector.call w us (t_get self) s with
  | (Raises e, s) => (Raises e, s)
  | (Returns t_val, s) =>
      match UniSimConnector.call w us (y_get self) s with
      | (Raises e, s) => (Raises e, s)
      | (Returns y_val, s) => (Returns (t_val, y_val), s)
      end
  end.

(** The limits given to [ax.set_xlim] for an array ending in [v]. *)
Definition x_window (r : numpy_promotion) (v : float) : float * float :=
  let xmin := py_max0 (np.sub r v sixty) in
  (xmin, np.add r xmin sixty).

(** [new_ymin], [new_ymax] after the test for a flat series. *)
Definition y_range (r : numpy_promotion) (y_data : list float) : option (float * float) :=
  match np.min y_data, np.max y_data with
  | Some new_ymin, Some new_ymax =>
      if F.eqb new_ymin new_ymax
      then Some (np.sub r new_ymin c1em6, np.add r new_ymax c1em6)
      else Some (new_ymin, new_ymax)
  | _, _ => None
  end.

Definition update_ylim (self : t) (new_ymin new_ymax : float) : bool :=
  match current_ymin self, current_ymax self with
  | Some cmin, Some cmax =>
      F.ltb (F.to_f64 new_ymin) (F.mul64 cmin c0_99)
      || F.gtb (F.to_f64 new_ymax) (F.mul64 cmax c1_01)
  | _, _ => true
  end.

(** [_update] after the [try] block, with the two values read. *)
Definition redraw (r : numpy_promotion) (k : nat) (self : t)
    (t_val y_val : float) (s : Sys) : t * Sys :=
  let x' := deque_append MAX_POINTS (x self) t_val in
  let y' := deque_append MAX_POINTS (y self) y_val in
  let x_data := np.array x' in
  let y_data := np.array y' in
  (* x-axis limits *)
  let '(xlim', s) :=
    match last x_data with
    | Some v =>
        let '(lo, hi) := x_window r v in
        (Some (F.to_f64 lo, F.to_f64 hi), emit (set_xlim k lo hi) s)
    | None => (xlim self, s)
    end in
  (* y-axis limits, conditionally *)
  let '(ylim', cmin', cmax', s) :=
    match y_range r y_data with
    | Some (new_ymin, new_ymax) =>
        if update_ylim self new_ymin new_ymax then
          let lo := np.mul r new_ymin c0_98 in
          let hi := np.mul r new_ymax c1_02 in
          (* set_ylim, then current_ymin, current_ymax = get_ylim() *)
          let '(lo64, hi64) := (F.to_f64 lo, F.to_f64 hi) in
          (Some (lo64, hi64), Some lo64, Some hi64, emit (set_ylim k lo hi) s)
        else (ylim self, current_ymin self, current_ymax self, s)
    | None => (ylim self, current_ymin self, current_ymax self, s)
    end in
  (* plot data *)
  let s := emit (set_data k x_data y_data) s in
  let s := emit (draw_idle k) s in
  let '(id, s) := tk_after k (interval self) s in
  ({| title := title self; y_get := y_get self; t_get := t_get self;
      interval := interval self; x := x'; y := y';
      _after_id := Some id;
      current_ymin := cmin'; current_ymax := cmax';
      xlim := xlim'; ylim := ylim'; line := (x_data, y_data) |}, s).

Definition _update (w : World) (us : UniSimConnector.t) (k : nat) (self : t)
    (s : Sys) : t * Sys :=
  match poll w us self s with
  | (Raises e, s) => (self, emit (showerror "Data error" e) s)
  | (Returns (t_val, y_val), s) => redraw (numpy w) k self t_val y_val s
  end.

(** The object as [__init__] has set it up when it starts the loop. *)
Definition fresh (title : string) (y_getter t_getter : getter) : t :=
  {| title := title; y_get := y_getter; t_get := t_getter;
     interval := UPDATE_MS; x := []; y := [];
     _after_id := None; current_ymin := None; current_ymax := None;
     xlim := None; ylim := None; line := ([], []) |}.

Definition __init__ (w : World) (us : UniSimConnector.t) (k : nat)
    (title : string) (y_getter t_getter : getter) (s : Sys) : t * Sys :=
  let s := emit (Toplevel k title) s in
  let self := fresh title y_getter t_getter in
  _update w us k self s.

(** The slider writes the variable read by [self.interval.get()]. *)
Definition set_interval (v : Z) (self : t) : t :=
  {| title := title self; y_get := y_get self; t_get := t_get self;
     interval := scale_set v; x := x self; y := y self;
     _after_id := _after_id self;
     current_ymin := current_ymin self; current_ymax := current_ymax self;
     xlim := xlim self; ylim := ylim self; line := line self |}.

(** An id returned by [after] is a non-empty string, hence true. *)
Definition _on_close (k : nat) (self : t) (s : Sys) : Sys :=
  let s := match _after_id self with
           | Some id => tk_after_cancel id s
           | None => s
           end in
  emit (destroy k) s.
End LivePlot.

(** ** The canvas of the main window *)

Module Canvas.
Inductive item := bg_id | id_inlet | id_outlet | id_start | id_stop.

#[global] Instance item_eq_dec : EqDecision item.
Proof. solve_decision. Defined.

Inductive image :=
| open_resize (p : path) (w h : Z)    (* Image.open(p).resize((w, h), Image.LANCZOS) *)
| new_rgb (w h : Z) (color : string). (* Image.new("RGB", (w, h), color) *)

Record t := {
  display : list item;                (* the display list, lowest item first *)
  position : item -> float * float;
  shown : option image                (* image option of the item bg_id *)
}.

(** [create_image(0, 0, anchor="nw")] followed by four
    [create_window(0, 0, ...)]: a new item goes on top. *)
Definition create : t :=
  {| display := [bg_id; id_inlet; id_outlet; id_start; id_stop];
     position := fun _ => (F.zero, F.zero);
     shown := None |}.

Definition itemconfig_image (img : image) (c : t) : t :=
  {| display := display c; position := position c; shown := Some img |}.

Definition tag_lower (it : item) (c : t) : t :=
  {| display := it :: filter (fun j => j <> it) (display c);
     position := position c; shown := shown c |}.

Definition tag_raise (it : item) (c : t) : t :=
  {| display := filter (fun j => j <> it) (display c) ++ [it];
     position := position c; shown := shown c |}.

Definition coords (it : item) (xv yv : float) (c : t) : t :=
  {| display := display c;
     position := fun j => if decide (j = it) then (xv, yv) else position c j;
     shown := shown c |}.
End Canvas.

(** ** Main window *)

Inductive button := btn_inlet | btn_outlet | btn_start | btn_stop.

(** What the Tk event loop delivers to the program.  An event carries what
    its handler reads from outside: the canvas size and whether the PNG
    exists for a layout pass, the position for a move of the slider. *)
Inductive event :=
| Click (b : button)
| Configure (cw ch : Z) (png : bool)
| Timer (id : nat)                      (* the after-callback [id] is due *)
| Slide (k : nat) (v : Z)               (* slider of chart window k *)
| WM_DELETE_WINDOW (k : nat).           (* chart window k is closed *)

Module MainApp.
Record t := {
  us : UniSimConnector.t;
  canvas : Canvas.t;
  bg_img : option Canvas.image;
  plots : gmap nat LivePlot.t;        (* the open chart windows *)
  next_win : nat;
  sys : Sys
}.

Definition with_sys (s : Sys) (self : t) : t :=
  {| us := us self; canvas := canvas self; bg_img := bg_img self;
     plots := plots self; next_win := next_win self; sys := s |}.

Definition with_plots (m : gmap nat LivePlot.t) (self : t) : t :=
  {| us := us self; canvas := canvas self; bg_img := bg_img self;
     plots := m; next_win := next_win self; sys := sys self |}.

Definition frac (n : Z) (v : Z) : float := F.mul64 (F.lit n 100) (F.of_int v).

Definition _layout (w : World) (cw ch : Z) (png : bool) (self : t) : t :=
  if ((cw <? 10) || (ch <? 10))%Z then self else
  (* background *)
  let img := if png then Canvas.open_resize (IMAGE_PATH w) cw ch
             else Canvas.new_rgb cw ch "#D0D0D0" in
  let c := Canvas.itemconfig_image img (canvas self) in
  let c := Canvas.tag_lower Canvas.bg_id c in
  (* buttons *)
  let c := Canvas.coords Canvas.id_inlet (frac 15 cw) (frac 25 ch) c in
  let c := Canvas.coords Canvas.id_outlet (frac 75 cw) (frac 65 ch) c in
  let c := Canvas.coords Canvas.id_start (frac 5 cw) (frac 90 ch) c in
  let c := Canvas.coords Canvas.id_stop (frac 20 cw) (frac 90 ch) c in
  let c := fold_left (fun c it => Canvas.tag_raise it c)
             [Canvas.id_inlet; Canvas.id_outlet; Canvas.id_start; Canvas.id_stop] c in
  {| us := us self; canvas := c; bg_img := Some img;
     plots := plots self; next_win := next_win self; sys := sys self |}.

Definition __init__ (w : World) (s : Sys) : t :=
  let s := emit (Tk "UniSim Live Pressure Viewer") s in
  let '(us, s) := UniSimConnector.__init__ w s in
  let self := {| us := us; canvas := Canvas.create; bg_img := None;
                 plots := ∅; next_win := 0; sys := s |} in
  _layout w (fst (winfo0 w)) (snd (winfo0 w)) (png0 w) self.

(** An exception leaving a callback is reported by Tk; the loop goes on. *)
Definition callback (r : outcome unit * Sys) (self : t) : t :=
  match r with
  | (Returns _, s) => with_sys s self
  | (Raises e, s) => with_sys (emit (callback_exception e) s) self
  end.

Definition demo_only (self : t) : t :=
  with_sys (emit (showinfo "Demo" "UniSim not connected – demo only.") (sys self)) self.

Definition _start_sim (w : World) (self : t) : t :=
  if UniSimConnector.connected (us self)
  then callback (UniSimConnector.start w (us self) (sys self)) self
  else demo_only self.

Definition _stop_sim (w : World) (self : t) : t :=
  if UniSimConnector.connected (us self)
  then callback (UniSimConnector.stop w (us self) (sys self)) self
  else demo_only self.

(** [LivePlot(title, y_get, t_get)]: the new window gets the next number. *)
Definition open_plot (w : World) (title : string) (y_getter t_getter : getter)
    (self : t) : t :=
  let k := next_win self in
  let '(p, s) := LivePlot.__init__ w (us self) k title y_getter t_getter (sys self) in
  {| us := us self; canvas := canvas self; bg_img := bg_img self;
     plots := <[k := p]> (plots self); next_win := S k; sys := s |}.

Definition _plot_inlet (w : World) (self : t) : t :=
  let t_get := us_sim_time in
  let y_get := us_inlet_pressure in
  open_plot w "Inlet Pressure(kPa)" y_get t_get self.

Definition _plot_outlet (w : World) (self : t) : t :=
  let t_get := us_sim_time in
  let y_get := us_outlet_pressure in
  open_plot w "Outlet Pressure (kPa)" y_get t_get self.

(** The callback [self._update] of chart window [k], run by the loop. *)
Definition run_update (w : World) (k : nat) (self : t) : t :=
  match plots self !! k with
  | Some p =>
      let '(p', s) := LivePlot._update w (us self) k p (sys self) in
      with_sys s (with_plots (<[k := p']> (plots self)) self)
  | None => self
  end.
End MainApp.

(** One turn of the event loop. *)
Definition step (w : World) (e : event) (self : MainApp.t) : MainApp.t :=
  match e with
  | Click btn_inlet => MainApp._plot_inlet w self
  | Click btn_outlet => MainApp._plot_outlet w self
  | Click btn_start => MainApp._start_sim w self
  | Click btn_stop => MainApp._stop_sim w self
  | Configure cw ch png => MainApp._layout w cw ch png self
  | Timer id =>
      match timers (MainApp.sys self) !! id with
      | Some k =>
          MainApp.run_update w k
            (MainApp.with_sys (tk_take id (MainApp.sys self)) self)
      | None => self
      end
  | Slide k v =>
      match MainApp.plots self !! k with
      | Some p =>
          MainApp.with_plots (<[k := LivePlot.set_interval v p]> (MainApp.plots self)) self
      | None => self
      end
  | WM_DELETE_WINDOW k =>
      match MainApp.plots self !! k with
      | Some p =>
          MainApp.with_sys (LivePlot._on_close k p (MainApp.sys self))
            (MainApp.with_plots (delete k (MainApp.plots self)) self)
      | None => self
      end
  end.

Definition run_from (w : World) (self : MainApp.t) (evs : list event) : MainApp.t :=
  fold_left (fun s e => step w e s) evs self.

(** ** The script *)

(** Module level: the guarded import. *)
Definition boot (w : World) : Sys :=
  let s := {| trace := []; ncom := 0; timers := ∅; next_after := 0 |} in
  if win32com w then s
  else emit (print [text "pywin32 not installed – running in demo mode."]) s.

Inductive process :=
| exited (code : Z) (s : Sys)           (* sys.exit(code) *)
| mainloop (app : MainApp.t).           (* MainApp().mainloop() after the events *)

Definition main (w : World) (evs : list event) : process :=
  let s := boot w in
  if negb (String.eqb (platform w) "win32") then
    exited 1 (emit (showerror "Unsupported OS" "This application runs only on Windows.") s)
  else mainloop (run_from w (MainApp.__init__ w s) evs).

(** The states the main loop goes through. *)
Definition run (w : World) (evs : list event) : MainApp.t :=
  run_from w (MainApp.__init__ w (boot w)) evs.

(** ** Vocabulary of the properties *)

(** The automation calls of a trace, in order. *)
Definition coms (tr : list effect) : list com_call :=
  omap (fun e => match e with Com c => Some c | _ => None end) tr.

(** The calls of the connector's [try] block, in program order. *)
Definition connect_calls (w : World) : list com_call :=
  [Dispatch UniSimConnector.PROGID; SetAppVisible;
   SimulationCases_Open (SIM_PATH w); SetSimVisible; Flowsheet;
   MaterialStreams_Item INLET_STREAM; MaterialStreams_Item OUTLET_STREAM].

(** How many of the calls [cs] are made when the first is the [i]-th call
    to the server and an exception ends the sequence. *)
Fixpoint attempts (w : World) (i : nat) (cs : list com_call) : nat :=
  match cs with
  | [] => 0
  | c :: cs' =>
      match com_step w i c with
      | None => S (attempts w (S i) cs')
      | Some _ => 1
      end
  end.

(** The stream attributes, when assigned, hold the two named streams. *)
Definition us_named (us : UniSimConnector.t) : Prop :=
  (UniSimConnector.inlet us = None \/ UniSimConnector.inlet us = Some INLET_STREAM) /\
  (UniSimConnector.outlet us = None \/ UniSimConnector.outlet us = Some OUTLET_STREAM).

(** A call that establishes the connection. *)
Definition connecting (c : com_call) : bool :=
  match c with
  | Dispatch _ | SetAppVisible | SimulationCases_Open _ | SetSimVisible
  | Flowsheet | MaterialStreams_Item _ => true
  | PressureValue _ | GetTime | SetIsRunning _ => false
  end.

Definition two_streams (name : string) : Prop :=
  name = INLET_STREAM \/ name = OUTLET_STREAM.

(** What the event loop may do once the main window is built: no further
    main window, no call that connects, readings of the two streams only. *)
Definition loop_effect (e : effect) : Prop :=
  match e with
  | Tk _ => False
  | Com (PressureValue name) => two_streams name
  | Com c => connecting c = false
  | _ => True
  end.

(** The stream a pressure getter reads. *)
Definition stream_of (g : getter) : option string :=
  match g with
  | us_inlet_pressure => Some INLET_STREAM
  | us_outlet_pressure => Some OUTLET_STREAM
  | us_sim_time => None
  end.

(** The automation call behind a getter, when the attribute it goes
    through has been assigned. *)
Definition reading (us : UniSimConnector.t) (g : getter) : option com_call :=
  match g with
  | us_sim_time => match UniSimConnector.sim us with
                   | Some _ => Some GetTime
                   | None => None
                   end
  | us_inlet_pressure => PressureValue <$> UniSimConnector.inlet us
  | us_outlet_pressure => PressureValue <$> UniSimConnector.outlet us
  end.

(** The places where [LivePlot._update] is entered: the end of
    [LivePlot.__init__] for the window a click opens, and the callback of a
    due timer.  [entry w e a] gives the window, the object and the runtime
    state at that point of the turn [step w e a]. *)
Definition entry (w : World) (e : event) (a : MainApp.t)
    : option (nat * LivePlot.t * Sys) :=
  match e with
  | Click btn_inlet =>
      Some (MainApp.next_win a,
            LivePlot.fresh "Inlet Pressure(kPa)" us_inlet_pressure us_sim_time,
            emit (Toplevel (MainApp.next_win a) "Inlet Pressure(kPa)") (MainApp.sys a))
  | Click btn_outlet =>
      Some (MainApp.next_win a,
            LivePlot.fresh "Outlet Pressure (kPa)" us_outlet_pressure us_sim_time,
            emit (Toplevel (MainApp.next_win a) "Outlet Pressure (kPa)") (MainApp.sys a))
  | Timer id =>
      match timers (MainApp.sys a) !! id with
      | Some k =>
          match MainApp.plots a !! k with
          | Some p => Some (k, p, tk_take id (MainApp.sys a))
          | None => None
          end
      | None => None
      end
  | _ => None
  end.

(** Invariant of a chart window. *)
Record plot_ok (p : LivePlot.t) : Prop := {
  ok_len : length (LivePlot.x p) = length (LivePlot.y p);
  ok_max : length (LivePlot.x p) <= MAX_POINTS;
  ok_interval : (SCALE_FROM <= LivePlot.interval p <= SCALE_TO)%Z;
  ok_t_get : LivePlot.t_get p = us_sim_time;
  ok_y_get : is_Some (stream_of (LivePlot.y_get p));
  ok_ymin : LivePlot.current_ymin p = None <-> LivePlot.y p = [];
  ok_ymax : LivePlot.current_ymax p = None <-> LivePlot.y p = []
}.

(** Invariant of the application. *)
Record Inv (w : World) (a : MainApp.t) : Prop := {
  inv_us : MainApp.us a = MainApp.us (MainApp.__init__ w (boot w));
  inv_plots : forall k p, MainApp.plots a !! k = Some p ->
      k < MainApp.next_win a /\ plot_ok p;
  inv_timers : forall id k, timers (MainApp.sys a) !! id = Some k ->
      id < next_after (MainApp.sys a) /\
      exists p, MainApp.plots a !! k = Some p /\ LivePlot._after_id p = Some id;
  inv_display : Canvas.display (MainApp.canvas a) =
      [Canvas.bg_id; Canvas.id_inlet; Canvas.id_outlet; Canvas.id_start; Canvas.id_stop];
  inv_bg : Canvas.position (MainApp.canvas a) Canvas.bg_id = (F.zero, F.zero);
  inv_trace : exists l,
      trace (MainApp.sys a) = trace (MainApp.sys (MainApp.__init__ w (boot w))) ++ l /\
      Forall loop_effect l
}.

(** Window [k] is out of the loop: nothing is queued for it, and as long as
    it is open its buffers are [bx] and [by]. *)
Definition stopped (k : nat) (bx by_ : list float) (a : MainApp.t) : Prop :=
  k < MainApp.next_win a /\
  (forall id, timers (MainApp.sys a) !! id <> Some k) /\
  (forall p, MainApp.plots a !! k = Some p -> LivePlot.x p = bx /\ LivePlot.y p = by_).

(** ** Sample worlds *)

(** A server that answers every call; the n-th reading is [100 + n]. *)
Definition w_ok : World :=
  {| platform := "win32"; win32com := true; BASE_PATH := "C:\viewer";
     numpy := NEP50; winfo0 := (1, 1)%Z; png0 := true;
     com_step := fun _ _ => None;
     com_read := fun n _ => Returns (F.of_int (100 + Z.of_nat n)) |}.

(** The same server, unreachable from the tenth call on. *)
Definition w_flaky : World :=
  {| platform := "win32"; win32com := true; BASE_PATH := "C:\viewer";
     numpy := NEP50; winfo0 := (1, 1)%Z; png0 := true;
     com_step := fun _ _ => None;
     com_read := fun n _ => if (n <? 9)%nat then Returns (F.of_int (100 + Z.of_nat n))
                            else Raises "The RPC server is unavailable." |}.

(** Another platform, without pywin32. *)
Definition w_linux : World :=
  {| platform := "linux"; win32com := false; BASE_PATH := "/opt/viewer";
     numpy := NEP50; winfo0 := (1, 1)%Z; png0 := false;
     com_step := fun _ _ => None;
     com_read := fun _ _ => Raises "no server" |}.

(** A server at simulation time [t] with both pressures at [v]. *)
Definition w_at (r : numpy_promotion) (t v : float) : World :=
  {| platform := "win32"; win32com := true; BASE_PATH := "C:\viewer";
     numpy := r; winfo0 := (1, 1)%Z; png0 := true;
     com_step := fun _ _ => None;
     com_read := fun _ c => match c with GetTime => Returns t | _ => Returns v end |}.

(** The chart window [k], when it is open. *)
Definition chart (a : MainApp.t) (k : nat) : option LivePlot.t := MainApp.plots a !! k.

(** ** Further vocabulary *)

(** What a chart window shows agrees with what it holds: the line is the
    [np.float32] image of the buffers, the axes have limits exactly when
    there is data, the recorded y limits are those of the axes, and a
    callback id is recorded exactly when there is data. *)
Record plot_sync (p : LivePlot.t) : Prop := {
  sync_line : LivePlot.line p = (np.array (LivePlot.x p), np.array (LivePlot.y p));
  sync_xlim : LivePlot.xlim p = None <-> LivePlot.x p = [];
  sync_ymin : LivePlot.current_ymin p = fst <$> LivePlot.ylim p;
  sync_ymax : LivePlot.current_ymax p = snd <$> LivePlot.ylim p;
  sync_after : LivePlot._after_id p = None <-> LivePlot.x p = []
}.

(** The callback ids recorded by the open windows are ids already handed
    out, and two windows never record the same one. *)
Record Sync (a : MainApp.t) : Prop := {
  sync_plots : forall k p, MainApp.plots a !! k = Some p -> plot_sync p;
  sync_ids : forall k p id, MainApp.plots a !! k = Some p ->
      LivePlot._after_id p = Some id -> id < next_after (MainApp.sys a);
  sync_unique : forall k1 k2 p1 p2 id,
      MainApp.plots a !! k1 = Some p1 -> MainApp.plots a !! k2 = Some p2 ->
      LivePlot._after_id p1 = Some id -> LivePlot._after_id p2 = Some id ->
      k1 = k2
}.

(** Windows, on which pywin32 is missing: the demo mode. *)
Definition w_demo : World :=
  {| platform := "win32"; win32com := false; BASE_PATH := "C:\viewer";
     numpy := NEP50; winfo0 := (1, 1)%Z; png0 := true;
     com_step := fun _ _ => None;
     com_read := fun n _ => Returns (F.of_int (100 + Z.of_nat n)) |}.

(** A case without a stream named "Outlet": the seventh call raises. *)
Definition w_partial : World :=
  {| platform := "win32"; win32com := true; BASE_PATH := "C:\viewer";
     numpy := NEP50; winfo0 := (1, 1)%Z; png0 := true;
     com_step := fun n _ => if (n =? 6)%nat then Some "Item not found" else None;
     com_read := fun n _ => Returns (F.of_int (100 + Z.of_nat n)) |}.

(** Nothing has ever been plotted: every open chart is as [__init__] set it
    up (but for its slider), nothing is queued, and the automation calls of
    the trace are those of the constructor. *)
Record idle_app (w : World) (a : MainApp.t) : Prop := {
  idle_plots : forall k p, MainApp.plots a !! k = Some p ->
      LivePlot.x p = [] /\ LivePlot.y p = [] /\ LivePlot._after_id p = None /\
      LivePlot.xlim p = None /\ LivePlot.ylim p = None;
  idle_timers : timers (MainApp.sys a) = ∅;
  idle_coms : coms (trace (MainApp.sys a)) =
              coms (trace (MainApp.sys (MainApp.__init__ w (boot w))))
}.

(** * Properties *)

(** ** The bounded buffer *)

Section Deque.
Context {A : Type}.
Implicit Types (d l : list A) (v : A) (n : nat).

Lemma deque_append_drop n d v :
  length d <= n ->
  deque_append n d v = drop (S (length d) - n) (d ++ [v]).
Proof.
  intros Hn. unfold deque_append. rewrite length_app. simpl.
  destruct (Nat.ltb_spec n (length d + 1)) as [Hlt | Hge].
  - replace (S (length d) - n) with 1 by lia. reflexivity.
  - replace (S (length d) - n) with 0 by lia. reflexivity.
Qed.

Lemma deque_append_length n d v :
  length d <= n ->
  length (deque_append n d v) = Nat.min n (S (length d)).
Proof.
  intros Hn. rewrite deque_append_drop by done.
  rewrite length_drop, length_app. simpl. lia.
Qed.

Lemma deque_append_bound n d v :
  length d <= n -> length (deque_append n d v) <= n.
Proof. intros Hn. rewrite deque_append_length by done. lia. Qed.

Lemma deque_append_last n d v :
  0 < n -> last (deque_append n d v) = Some v.
Proof.
  intros Hn. unfold deque_append. rewrite length_app. simpl.
  destruct (Nat.ltb_spec n (length d + 1)) as [Hlt | Hge].
  - destruct d as [| a d]; simpl in *; [lia |].
    rewrite drop_0. apply last_snoc.
  - apply last_snoc.
Qed.

Lemma deque_append_nonempty n d v :
  0 < n -> deque_append n d v <> [].
Proof.
  intros Hn Hnil. pose proof (deque_append_last n d v Hn) as Hl.
  rewrite Hnil in Hl. discriminate.
Qed.

(** Feeding a whole series leaves its last [n] elements, in order. *)
Lemma deque_fold n l :
  fold_left (deque_append n) l [] = drop (length l - n) l.
Proof.
  induction l as [| v l IH] using rev_ind.
  - reflexivity.
  - rewrite fold_left_app. simpl. rewrite IH.
    assert (Hlen : length (drop (length l - n) l) <= n)
      by (rewrite length_drop; lia).
    rewrite deque_append_drop by done.
    rewrite length_drop, length_app. simpl.
    rewrite <- drop_app_le by lia.
    rewrite drop_drop. f_equal. lia.
Qed.
End Deque.

(** ** Reading the simulation *)

Lemma call_cases w us g s :
  (reading us g = None /\
   exists a, UniSimConnector.call w us g s = (Raises (UniSimConnector.no_attribute a), s)) \/
  (exists c, reading us g = Some c /\
   UniSimConnector.call w us g s = (com_read w (ncom s) c, called c s)).
Proof.
  destruct g; simpl;
    unfold UniSimConnector.sim_time, UniSimConnector.inlet_pressure,
      UniSimConnector.outlet_pressure.
  - destruct (UniSimConnector.sim us); [right | left]; eauto.
  - destruct (UniSimConnector.inlet us); [right | left]; simpl; eauto.
  - destruct (UniSimConnector.outlet us); [right | left]; simpl; eauto.
Qed.

(** A poll makes at most the two calls behind its getters, the time first,
    and touches nothing else. *)
Lemma poll_frame w us p s r s1 :
  LivePlot.poll w us p s = (r, s1) ->
  timers s1 = timers s /\ next_after s1 = next_after s /\
  exists cs, trace s1 = trace s ++ (Com <$> cs) /\
             ncom s1 = ncom s + length cs /\
             length cs <= 2 /\
             Forall (fun c => reading us (LivePlot.t_get p) = Some c \/
                              reading us (LivePlot.y_get p) = Some c) cs.
Proof.
  unfold LivePlot.poll. intros H.
  destruct (call_cases w us (LivePlot.t_get p) s) as [[_ [a Ha]] | [c [Hc Ha]]];
    rewrite Ha in H.
  - inversion H; subst. repeat split; try done.
    exists []. simpl. rewrite app_nil_r. repeat split; try lia; auto.
  - destruct (com_read w (ncom s) c) as [t_val | e].
    + destruct (call_cases w us (LivePlot.y_get p) (called c s))
        as [[_ [a' Hy]] | [c' [Hc' Hy]]]; rewrite Hy in H.
      * inversion H; subst. repeat split; try done.
        exists [c]. simpl. repeat split; try lia; auto.
      * assert (Hs1 : s1 = called c' (called c s))
          by (destruct (com_read w (ncom (called c s)) c'); inversion H; done).
        subst s1. repeat split; try done.
        exists [c; c']. simpl. rewrite <- app_assoc. simpl.
        repeat split; try lia; auto.
    + inversion H; subst. repeat split; try done.
      exists [c]. simpl. repeat split; try lia; auto.
Qed.

(** A poll that returns has read the time, then the pressure. *)
Lemma poll_returns w us p s t_val y_val s1 :
  LivePlot.poll w us p s = (Returns (t_val, y_val), s1) ->
  exists ct cy,
    reading us (LivePlot.t_get p) = Some ct /\
    reading us (LivePlot.y_get p) = Some cy /\
    com_read w (ncom s) ct = Returns t_val /\
    com_read w (S (ncom s)) cy = Returns y_val /\
    s1 = called cy (called ct s).
Proof.
  unfold LivePlot.poll. intros H.
  destruct (call_cases w us (LivePlot.t_get p) s) as [[_ [a Ha]] | [c [Hc Ha]]];
    rewrite Ha in H; [discriminate |].
  destruct (com_read w (ncom s) c) as [t' | e] eqn:Ht; [| discriminate].
  destruct (call_cases w us (LivePlot.y_get p) (called c s))
    as [[_ [a' Hy]] | [c' [Hc' Hy]]]; rewrite Hy in H; [discriminate |].
  simpl in H.
  destruct (com_read w (S (ncom s)) c') as [y' | e] eqn:Hv; [| discriminate].
  inversion H; subst. exists c, c'. done.
Qed.

(** ** Redrawing *)

Lemma array_last d v : last d = Some v -> last (np.array d) = Some (F.to_f32 v).
Proof. intros H. unfold np.array. rewrite fmap_last, H. reflexivity. Qed.

Lemma max_points_pos : 0 < MAX_POINTS.
Proof. unfold MAX_POINTS. lia. Qed.

Lemma y_range_some r a :
  a <> [] -> exists mn mx, np.min a = Some mn /\ np.max a = Some mx /\
    LivePlot.y_range r a =
      Some (if F.eqb mn mx
            then (np.sub r mn LivePlot.c1em6, np.add r mx LivePlot.c1em6)
            else (mn, mx)).
Proof.
  intros Ha. destruct a as [| v a]; [done |].
  unfold LivePlot.y_range. simpl. eexists _, _. split; [done |]. split; [done |].
  destruct (F.eqb _ _); reflexivity.
Qed.

Lemma array_nonempty d : d <> [] -> np.array d <> [].
Proof. destruct d; [done |]. discriminate. Qed.

(** The state after a successful update, branch by branch. *)
Lemma redraw_spec r k p t_val y_val s :
  let x' := deque_append MAX_POINTS (LivePlot.x p) t_val in
  let y' := deque_append MAX_POINTS (LivePlot.y p) y_val in
  let xw := LivePlot.x_window r (F.to_f32 t_val) in
  exists new_ymin new_ymax,
    LivePlot.y_range r (np.array y') = Some (new_ymin, new_ymax) /\
    let upd := LivePlot.update_ylim p new_ymin new_ymax in
    let lo := np.mul r new_ymin LivePlot.c0_98 in
    let hi := np.mul r new_ymax LivePlot.c1_02 in
    LivePlot.redraw r k p t_val y_val s =
      ({| LivePlot.title := LivePlot.title p;
          LivePlot.y_get := LivePlot.y_get p;
          LivePlot.t_get := LivePlot.t_get p;
          LivePlot.interval := LivePlot.interval p;
          LivePlot.x := x'; LivePlot.y := y';
          LivePlot._after_id := Some (next_after s);
          LivePlot.current_ymin :=
            if upd then Some (F.to_f64 lo) else LivePlot.current_ymin p;
          LivePlot.current_ymax :=
            if upd then Some (F.to_f64 hi) else LivePlot.current_ymax p;
          LivePlot.xlim := Some (F.to_f64 (fst xw), F.to_f64 (snd xw));
          LivePlot.ylim :=
            if upd then Some (F.to_f64 lo, F.to_f64 hi) else LivePlot.ylim p;
          LivePlot.line := (np.array x', np.array y') |},
       {| trace := trace s ++ [set_xlim k (fst xw) (snd xw)]
                     ++ (if upd then [set_ylim k lo hi] else [])
                     ++ [set_data k (np.array x') (np.array y'); draw_idle k;
                         after k (LivePlot.interval p) (next_after s)];
          ncom := ncom s;
          timers := <[next_after s := k]> (timers s);
          next_after := S (next_after s) |}).
Proof.
  intros x' y' xw.
  destruct (y_range_some r (np.array y')) as (mn & mx & _ & _ & Hr).
  { apply array_nonempty, deque_append_nonempty, max_points_pos. }
  destruct (if F.eqb mn mx then _ else _) as [new_ymin new_ymax].
  exists new_ymin, new_ymax. split; [exact Hr |].
  unfold LivePlot.redraw. fold x' y'.
  rewrite (array_last x' t_val) by apply deque_append_last, max_points_pos.
  fold xw. destruct xw as [xlo xhi]. rewrite Hr.
  destruct (LivePlot.update_ylim p new_ymin new_ymax);
    simpl; unfold tk_after, emit; simpl; repeat rewrite <- app_assoc; reflexivity.
Qed.

(** ** The connector *)

Lemma coms_app tr1 tr2 : coms (tr1 ++ tr2) = coms tr1 ++ coms tr2.
Proof. unfold coms. apply omap_app. Qed.

Ltac split_step :=
  match goal with
  | |- context [com_step ?w ?i ?c] =>
      let E := fresh "E" in destruct (com_step w i c) eqn:E; simpl
  end.

(** Every call listed returned, against one that raised. *)
Ltac refute_step H :=
  exfalso;
  match goal with
  | E : com_step _ _ ?c = Some _ |- _ =>
      let H' := fresh "H'" in
      first [ pose proof (H 0 c eq_refl) as H'
            | pose proof (H 1 c eq_refl) as H'
            | pose proof (H 2 c eq_refl) as H'
            | pose proof (H 3 c eq_refl) as H'
            | pose proof (H 4 c eq_refl) as H'
            | pose proof (H 5 c eq_refl) as H'
            | pose proof (H 6 c eq_refl) as H' ];
      simpl in H'; congruence
  end.

(** The constructor: which calls are made, and when [connected] is set. *)
Lemma connector_init_spec w s :
  let r := UniSimConnector.__init__ w s in
  let n := if win32com w then attempts w (ncom s) (connect_calls w) else 0 in
  timers (snd r) = timers s /\ next_after (snd r) = next_after s /\
  ncom (snd r) = ncom s + n /\
  coms (trace (snd r)) = coms (trace s) ++ take n (connect_calls w) /\
  (exists l, trace (snd r) = trace s ++ l /\
     Forall (fun e => match e with print _ | Com _ => True | _ => False end) l) /\
  (UniSimConnector.connected (fst r) = true <->
     win32com w = true /\
     forall i c, connect_calls w !! i = Some c -> com_step w (i + ncom s) c = None) /\
  (UniSimConnector.connected (fst r) = true -> n = 7 /\
     fst r = {| UniSimConnector.connected := true;
                UniSimConnector.app := Some UniSimConnector.PROGID;
                UniSimConnector.sim := Some (SIM_PATH w);
                UniSimConnector.inlet := Some INLET_STREAM;
                UniSimConnector.outlet := Some OUTLET_STREAM |}) /\
  us_named (fst r).
Proof.
  unfold UniSimConnector.__init__, us_named.
  destruct (win32com w) eqn:Hw; simpl.
  - unfold UniSimConnector.attempt, com_do. simpl.
    repeat split_step;
      rewrite ?coms_app; simpl; rewrite ?app_nil_r, <- ?app_assoc; simpl;
      (split; [reflexivity |]); (split; [reflexivity |]);
      (split; [lia |]); (split; [reflexivity |]);
      (split; [eexists; split; [reflexivity | repeat constructor] |]);
      (split; [| split; [intros H; try discriminate H; done | auto]]).
    all: split; [intros H; try discriminate H | intros [_ H]; try reflexivity].
    all: try (refute_step H).
    split; [done |]. intros i c Hi. unfold connect_calls in Hi.
    do 7 (destruct i as [| i]; simpl in Hi;
          [inversion Hi; subst; simpl; assumption |]).
    discriminate Hi.
  - rewrite !app_nil_r. repeat split; try done; try lia; auto.
    exists []. rewrite app_nil_r. done.
Qed.

(** ** Layout and construction of the main window *)

Lemma layout_frame w cw ch png a :
  let a' := MainApp._layout w cw ch png a in
  MainApp.us a' = MainApp.us a /\ MainApp.plots a' = MainApp.plots a /\
  MainApp.next_win a' = MainApp.next_win a /\ MainApp.sys a' = MainApp.sys a.
Proof.
  unfold MainApp._layout. destruct (_ || _)%Z; simpl; done.
Qed.

Lemma layout_display w cw ch png a :
  Canvas.display (MainApp.canvas a) =
    [Canvas.bg_id; Canvas.id_inlet; Canvas.id_outlet; Canvas.id_start; Canvas.id_stop] ->
  Canvas.display (MainApp.canvas (MainApp._layout w cw ch png a)) =
    [Canvas.bg_id; Canvas.id_inlet; Canvas.id_outlet; Canvas.id_start; Canvas.id_stop].
Proof.
  intros H. unfold MainApp._layout. destruct (_ || _)%Z; [done |].
  simpl. rewrite H. reflexivity.
Qed.

Lemma layout_bg w cw ch png a :
  Canvas.position (MainApp.canvas (MainApp._layout w cw ch png a)) Canvas.bg_id =
  Canvas.position (MainApp.canvas a) Canvas.bg_id.
Proof.
  unfold MainApp._layout. destruct (_ || _)%Z; reflexivity.
Qed.

Lemma init_fields w :
  let r := UniSimConnector.__init__ w (emit (Tk "UniSim Live Pressure Viewer") (boot w)) in
  let a := MainApp.__init__ w (boot w) in
  MainApp.us a = fst r /\ MainApp.sys a = snd r /\
  MainApp.plots a = ∅ /\ MainApp.next_win a = 0.
Proof.
  unfold MainApp.__init__.
  destruct (UniSimConnector.__init__ w _) as [us s]. simpl.
  match goal with |- context [MainApp._layout ?w ?x ?y ?z ?a] =>
    destruct (layout_frame w x y z a) as (-> & -> & -> & ->) end.
  done.
Qed.

Lemma boot_fields w :
  ncom (boot w) = 0 /\ timers (boot w) = ∅ /\ next_after (boot w) = 0 /\
  coms (trace (boot w)) = [] /\
  Forall (fun e => match e with print _ => True | _ => False end) (trace (boot w)).
Proof. unfold boot. destruct (win32com w); simpl; repeat split; repeat constructor. Qed.

Lemma init_named w : us_named (MainApp.us (MainApp.__init__ w (boot w))).
Proof.
  destruct (init_fields w) as (-> & _).
  apply connector_init_spec.
Qed.

Lemma init_timers w : timers (MainApp.sys (MainApp.__init__ w (boot w))) = ∅.
Proof.
  destruct (init_fields w) as (_ & -> & _).
  destruct (connector_init_spec w (emit (Tk "UniSim Live Pressure Viewer") (boot w)))
    as (-> & _).
  simpl. apply boot_fields.
Qed.

Lemma Inv_init w : Inv w (MainApp.__init__ w (boot w)).
Proof.
  destruct (init_fields w) as (Hus & Hsys & Hplots & Hnext).
  split.
  - reflexivity.
  - intros k p. rewrite Hplots, lookup_empty. discriminate.
  - intros id k. rewrite init_timers, lookup_empty. discriminate.
  - unfold MainApp.__init__. destruct (UniSimConnector.__init__ w _).
    apply layout_display. reflexivity.
  - unfold MainApp.__init__. destruct (UniSimConnector.__init__ w _).
    rewrite layout_bg. reflexivity.
  - exists []. rewrite app_nil_r. done.
Qed.

(** ** One update *)

Lemma reading_loop us g c :
  us_named us -> reading us g = Some c -> loop_effect (Com c).
Proof.
  intros [Hin Hout] H. destruct g; simpl in H.
  - destruct (UniSimConnector.sim us); inversion H. reflexivity.
  - destruct Hin as [Hi | Hi]; rewrite Hi in H; inversion H. left. reflexivity.
  - destruct Hout as [Ho | Ho]; rewrite Ho in H; inversion H. right. reflexivity.
Qed.

Lemma poll_loop w us p s r s1 :
  us_named us -> LivePlot.poll w us p s = (r, s1) ->
  exists l, trace s1 = trace s ++ l /\ Forall loop_effect l.
Proof.
  intros Hus H. destruct (poll_frame _ _ _ _ _ _ H) as (_ & _ & cs & Htr & _ & _ & Hcs).
  exists (Com <$> cs). split; [done |].
  apply Forall_fmap. eapply Forall_impl; [exact Hcs |].
  intros c [Hc | Hc]; simpl; eapply reading_loop; eauto.
Qed.

Lemma update_cases w us k p s :
  (exists e s1, LivePlot.poll w us p s = (Raises e, s1) /\
     LivePlot._update w us k p s = (p, emit (showerror "Data error" e) s1)) \/
  (exists t_val y_val s1, LivePlot.poll w us p s = (Returns (t_val, y_val), s1) /\
     LivePlot._update w us k p s = LivePlot.redraw (numpy w) k p t_val y_val s1).
Proof.
  unfold LivePlot._update.
  destruct (LivePlot.poll w us p s) as [[[t_val y_val] | e] s1]; [right | left]; eauto.
Qed.

Lemma update_ylim_false p a b :
  LivePlot.update_ylim p a b = false ->
  is_Some (LivePlot.current_ymin p) /\ is_Some (LivePlot.current_ymax p).
Proof.
  unfold LivePlot.update_ylim.
  destruct (LivePlot.current_ymin p), (LivePlot.current_ymax p); try discriminate.
  eauto.
Qed.

Lemma redraw_ok r k p t_val y_val s :
  plot_ok p -> plot_ok (fst (LivePlot.redraw r k p t_val y_val s)).
Proof.
  intros [Hlen Hmax Hint Ht Hy Hmin Hmx].
  destruct (redraw_spec r k p t_val y_val s) as (a & b & _ & ->). simpl.
  pose proof max_points_pos as Hpos.
  assert (Hne : deque_append MAX_POINTS (LivePlot.y p) y_val <> [])
    by (apply deque_append_nonempty; done).
  split; simpl; try done.
  - rewrite !deque_append_length by lia. lia.
  - apply deque_append_bound. done.
  - destruct (LivePlot.update_ylim p a b) eqn:Hu; [done |].
    apply update_ylim_false in Hu as [[? Hs] _]. rewrite Hs. done.
  - destruct (LivePlot.update_ylim p a b) eqn:Hu; [done |].
    apply update_ylim_false in Hu as [_ [? Hs]]. rewrite Hs. done.
Qed.

Lemma redraw_sys r k p t_val y_val s :
  let r' := LivePlot.redraw r k p t_val y_val s in
  timers (snd r') = <[next_after s := k]> (timers s) /\
  next_after (snd r') = S (next_after s) /\
  ncom (snd r') = ncom s /\
  LivePlot._after_id (fst r') = Some (next_after s) /\
  (exists l, trace (snd r') = trace s ++ l /\ Forall loop_effect l) /\
  last (trace (snd r')) = Some (after k (LivePlot.interval p) (next_after s)).
Proof.
  destruct (redraw_spec r k p t_val y_val s) as (a & b & _ & ->). simpl.
  repeat split.
  - eexists. split; [reflexivity |].
    destruct (LivePlot.update_ylim p a b); repeat constructor.
  - apply last_Some. destruct (LivePlot.update_ylim p a b); simpl.
    + exists (trace s ++ [set_xlim k (fst (LivePlot.x_window r (F.to_f32 t_val)))
                            (snd (LivePlot.x_window r (F.to_f32 t_val)));
                          set_ylim k (np.mul r a LivePlot.c0_98) (np.mul r b LivePlot.c1_02);
                          set_data k (np.array (deque_append MAX_POINTS (LivePlot.x p) t_val))
                            (np.array (deque_append MAX_POINTS (LivePlot.y p) y_val));
                          draw_idle k]).
      rewrite <- app_assoc. reflexivity.
    + exists (trace s ++ [set_xlim k (fst (LivePlot.x_window r (F.to_f32 t_val)))
                            (snd (LivePlot.x_window r (F.to_f32 t_val)));
                          set_data k (np.array (deque_append MAX_POINTS (LivePlot.x p) t_val))
                            (np.array (deque_append MAX_POINTS (LivePlot.y p) y_val));
                          draw_idle k]).
      rewrite <- app_assoc. reflexivity.
Qed.

(** What one run of [_update] does to the window and to the runtime. *)
Lemma update_effect w us k p s :
  let r := LivePlot._update w us k p s in
  us_named us -> plot_ok p ->
  plot_ok (fst r) /\
  (exists l, trace (snd r) = trace s ++ l /\ Forall loop_effect l) /\
  ((timers (snd r) = timers s /\ next_after (snd r) = next_after s /\ fst r = p) \/
   (timers (snd r) = <[next_after s := k]> (timers s) /\
    next_after (snd r) = S (next_after s) /\
    LivePlot._after_id (fst r) = Some (next_after s))).
Proof.
  intros r Hus Hok. subst r.
  destruct (update_cases w us k p s)
    as [(e & s1 & Hp & ->) | (t_val & y_val & s1 & Hp & ->)].
  - destruct (poll_frame _ _ _ _ _ _ Hp) as (Ht & Hn & _).
    destruct (poll_loop _ _ _ _ _ _ Hus Hp) as (l & Hl & HF).
    simpl. split; [done |]. split.
    + exists (l ++ [showerror "Data error" e]). rewrite Hl, <- app_assoc.
      split; [done |]. apply Forall_app. split; [done |]. repeat constructor.
    + left. done.
  - destruct (poll_frame _ _ _ _ _ _ Hp) as (Ht & Hn & _).
    destruct (poll_loop _ _ _ _ _ _ Hus Hp) as (l & Hl & HF).
    destruct (redraw_sys (numpy w) k p t_val y_val s1)
      as (Ht' & Hn' & _ & Hid & (l' & Hl' & HF') & _).
    split; [apply redraw_ok; done |]. split.
    + exists (l ++ l'). rewrite Hl', Hl, <- app_assoc.
      split; [done |]. apply Forall_app. done.
    + right. rewrite Ht', Hn', Hid, Ht, Hn. done.
Qed.

(** ** The invariant *)

Lemma fresh_ok title yg :
  is_Some (stream_of yg) -> plot_ok (LivePlot.fresh title yg us_sim_time).
Proof.
  intros Hy. split; simpl; try done; unfold SCALE_FROM, SCALE_TO, UPDATE_MS; lia.
Qed.

Lemma Inv_named w a : Inv w a -> us_named (MainApp.us a).
Proof. intros H. rewrite (inv_us _ _ H). apply init_named. Qed.

Lemma trace_extend w a l tr :
  Inv w a -> tr = trace (MainApp.sys a) ++ l -> Forall loop_effect l ->
  exists l', tr = trace (MainApp.sys (MainApp.__init__ w (boot w))) ++ l' /\
             Forall loop_effect l'.
Proof.
  intros H -> Hl. destruct (inv_trace _ _ H) as (l0 & -> & Hl0).
  exists (l0 ++ l). rewrite app_assoc. split; [done |]. apply Forall_app. done.
Qed.

Lemma Inv_open_plot w title yg a :
  is_Some (stream_of yg) -> Inv w a ->
  Inv w (MainApp.open_plot w title yg us_sim_time a).
Proof.
  intros Hy H. unfold MainApp.open_plot, LivePlot.__init__.
  set (s0 := emit (Toplevel (MainApp.next_win a) title) (MainApp.sys a)).
  pose proof (update_effect w (MainApp.us a) (MainApp.next_win a)
                (LivePlot.fresh title yg us_sim_time) s0
                (Inv_named _ _ H) (fresh_ok title yg Hy)) as (Hok & (l & Hl & HF) & Hcase).
  destruct (LivePlot._update _ _ _ _ _) as [p' s']. simpl in *.
  split; simpl.
  - apply (inv_us _ _ H).
  - intros k p Hk. apply lookup_insert_Some in Hk as [[<- <-] | [Hne Hk]].
    + split; [lia | done].
    + destruct (inv_plots _ _ H _ _ Hk). split; [lia | done].
  - intros id k Hid.
    destruct Hcase as [(Ht & Hn & _) | (Ht & Hn & Hafter)]; rewrite Ht, Hn in *.
    + destruct (inv_timers _ _ H _ _ Hid) as (Hlt & p & Hp & Hpid).
      split; [done |]. exists p. split; [| done].
      rewrite lookup_insert_ne; [done |].
      destruct (inv_plots _ _ H _ _ Hp). lia.
    + apply lookup_insert_Some in Hid as [[<- <-] | [Hne Hid]].
      * split; [lia |]. exists p'. rewrite lookup_insert_eq. done.
      * destruct (inv_timers _ _ H _ _ Hid) as (Hlt & p & Hp & Hpid).
        split; [simpl in *; lia |]. exists p. split; [| done].
        rewrite lookup_insert_ne; [done |].
        destruct (inv_plots _ _ H _ _ Hp). lia.
  - apply (inv_display _ _ H).
  - apply (inv_bg _ _ H).
  - eapply (trace_extend w a ([Toplevel (MainApp.next_win a) title] ++ l)); [done | |].
    + rewrite Hl. simpl. rewrite <- app_assoc. reflexivity.
    + apply Forall_app. split; [repeat constructor | done].
Qed.

Lemma Inv_timer w id k a :
  Inv w a -> timers (MainApp.sys a) !! id = Some k ->
  Inv w (MainApp.run_update w k (MainApp.with_sys (tk_take id (MainApp.sys a)) a)).
Proof.
  intros H Hid.
  destruct (inv_timers _ _ H _ _ Hid) as (Hlt & p & Hp & Hpid).
  destruct (inv_plots _ _ H _ _ Hp) as (Hk & Hok).
  unfold MainApp.run_update. simpl. rewrite Hp.
  pose proof (update_effect w (MainApp.us a) k p (tk_take id (MainApp.sys a))
                (Inv_named _ _ H) Hok) as (Hok' & (l & Hl & HF) & Hcase).
  destruct (LivePlot._update _ _ _ _ _) as [p' s']. simpl in *.
  split; simpl.
  - apply (inv_us _ _ H).
  - intros k' p'' Hk'. apply lookup_insert_Some in Hk' as [[<- <-] | [Hne Hk']].
    + done.
    + apply (inv_plots _ _ H _ _ Hk').
  - intros id' k' Hid'.
    assert (Hold : forall i j, delete id (timers (MainApp.sys a)) !! i = Some j ->
              i < next_after (MainApp.sys a) /\ j <> k /\
              exists q, MainApp.plots a !! j = Some q /\ LivePlot._after_id q = Some i).
    { intros i j Hij. apply lookup_delete_Some in Hij as [Hne Hij].
      destruct (inv_timers _ _ H _ _ Hij) as (Hi & q & Hq & Hqid).
      split; [done |]. split; [| eauto].
      intros ->. rewrite Hp in Hq. inversion Hq; subst. congruence. }
    destruct Hcase as [(Ht & Hn & _) | (Ht & Hn & Hafter)]; rewrite Ht, Hn in *.
    + destruct (Hold _ _ Hid') as (Hi & Hne & q & Hq & Hqid).
      split; [done |]. exists q. rewrite lookup_insert_ne; done.
    + apply lookup_insert_Some in Hid' as [[<- <-] | [Hne' Hid']].
      * split; [lia |]. exists p'. rewrite lookup_insert_eq. done.
      * destruct (Hold _ _ Hid') as (Hi & Hne & q & Hq & Hqid).
        split; [lia |]. exists q. rewrite lookup_insert_ne; done.
  - apply (inv_display _ _ H).
  - apply (inv_bg _ _ H).
  - eapply (trace_extend w a l); done.
Qed.

Lemma Inv_set_running w v a :
  Inv w a ->
  Inv w (MainApp.callback (UniSimConnector.set_running w (MainApp.us a) v (MainApp.sys a)) a).
Proof.
  intros H.
  assert (Hr : exists l,
            let r := UniSimConnector.set_running w (MainApp.us a) v (MainApp.sys a) in
            let s' := MainApp.sys (MainApp.callback r a) in
            MainApp.callback r a = MainApp.with_sys s' a /\
            timers s' = timers (MainApp.sys a) /\
            next_after s' = next_after (MainApp.sys a) /\
            trace s' = trace (MainApp.sys a) ++ l /\ Forall loop_effect l).
  { unfold UniSimConnector.set_running, com_do.
    destruct (UniSimConnector.connected _); [| exists []; simpl; rewrite app_nil_r; done].
    destruct (UniSimConnector.sim _).
    - destruct (com_step _ _ _); simpl.
      + eexists. repeat split. rewrite <- app_assoc. reflexivity. repeat constructor.
      + eexists. repeat split. repeat constructor.
    - simpl. eexists. repeat split. repeat constructor. }
  destruct Hr as (l & Heq & Ht & Hn & Hl & HF). simpl in *.
  rewrite Heq. split; simpl; try apply H.
  - rewrite Ht, Hn. apply H.
  - eapply trace_extend; done.
Qed.

Lemma Inv_step w e a : Inv w a -> Inv w (step w e a).
Proof.
  intros H. destruct e as [[] | cw ch png | id | k v | k]; simpl.
  - apply Inv_open_plot; [by eexists | done].
  - apply Inv_open_plot; [by eexists | done].
  - unfold MainApp._start_sim.
    destruct (UniSimConnector.connected (MainApp.us a)) eqn:Hc.
    + pose proof (Inv_set_running w 1 a H) as H'.
      unfold UniSimConnector.start. done.
    + split; simpl; try apply H.
      eapply trace_extend; [done | reflexivity | repeat constructor].
  - unfold MainApp._stop_sim.
    destruct (UniSimConnector.connected (MainApp.us a)) eqn:Hc.
    + pose proof (Inv_set_running w 0 a H) as H'.
      unfold UniSimConnector.stop. done.
    + split; simpl; try apply H.
      eapply trace_extend; [done | reflexivity | repeat constructor].
  - destruct (layout_frame w cw ch png a) as (Hus & Hpl & Hnw & Hsys).
    split; rewrite ?Hus, ?Hpl, ?Hnw, ?Hsys; try apply H.
    + apply layout_display, H.
    + rewrite layout_bg. apply H.
  - destruct (timers (MainApp.sys a) !! id) as [k |] eqn:Hid; [| done].
    apply Inv_timer; done.
  - destruct (MainApp.plots a !! k) as [p |] eqn:Hp; [| done].
    destruct (inv_plots _ _ H _ _ Hp) as (Hk & Hok).
    split; simpl; try apply H.
    + intros k' p' Hk'. apply lookup_insert_Some in Hk' as [[<- <-] | [Hne Hk']].
      * split; [done |]. destruct Hok. split; simpl; try done.
        unfold scale_set, SCALE_FROM, SCALE_TO. lia.
      * apply (inv_plots _ _ H _ _ Hk').
    + intros id k' Hid. destruct (inv_timers _ _ H _ _ Hid) as (Hlt & q & Hq & Hqid).
      split; [done |]. destruct (decide (k' = k)) as [-> | Hne].
      * rewrite Hp in Hq. inversion Hq; subst.
        eexists. rewrite lookup_insert_eq. done.
      * exists q. rewrite lookup_insert_ne; done.
  - destruct (MainApp.plots a !! k) as [p |] eqn:Hp; [| done].
    assert (Hs : exists l,
              let s' := LivePlot._on_close k p (MainApp.sys a) in
              next_after s' = next_after (MainApp.sys a) /\
              trace s' = trace (MainApp.sys a) ++ l /\ Forall loop_effect l /\
              forall i j, timers s' !! i = Some j ->
                timers (MainApp.sys a) !! i = Some j /\ LivePlot._after_id p <> Some i).
    { unfold LivePlot._on_close. destruct (LivePlot._after_id p) as [i0 |]; simpl.
      - eexists. repeat split.
        + rewrite <- app_assoc. reflexivity.
        + repeat constructor.
        + apply lookup_delete_Some in H0. apply H0.
        + apply lookup_delete_Some in H0. intros [= ->]. apply H0. reflexivity.
      - eexists. repeat split; [repeat constructor | done | done]. }
    destruct Hs as (l & Hn & Hl & HF & Ht). simpl in *.
    split; simpl; try apply H.
    + intros k' p' Hk'. apply lookup_delete_Some in Hk' as [Hne Hk'].
      apply (inv_plots _ _ H _ _ Hk').
    + intros id k' Hid. destruct (Ht _ _ Hid) as (Hid' & Hnid).
      destruct (inv_timers _ _ H _ _ Hid') as (Hlt & q & Hq & Hqid).
      rewrite Hn. split; [done |]. exists q. split; [| done].
      rewrite lookup_delete_ne; [done |].
      intros ->. rewrite Hp in Hq. inversion Hq; subst. done.
    + eapply trace_extend; done.
Qed.

Lemma Inv_run_from w a evs : Inv w a -> Inv w (run_from w a evs).
Proof.
  revert a. induction evs as [| e evs IH]; intros a H; simpl; [done |].
  apply IH, Inv_step, H.
Qed.

Lemma Inv_run w evs : Inv w (run w evs).
Proof. apply Inv_run_from, Inv_init. Qed.

(** ** Where updates happen *)

Lemma update_timers w us k p s :
  let r := LivePlot._update w us k p s in
  (timers (snd r) = timers s /\ next_after (snd r) = next_after s /\ fst r = p) \/
  (timers (snd r) = <[next_after s := k]> (timers s) /\
   next_after (snd r) = S (next_after s) /\
   LivePlot._after_id (fst r) = Some (next_after s)).
Proof.
  simpl.
  destruct (update_cases w us k p s)
    as [(e & s1 & Hp & ->) | (t_val & y_val & s1 & Hp & ->)];
    destruct (poll_frame _ _ _ _ _ _ Hp) as (Ht & Hn & _).
  - left. done.
  - right. destruct (redraw_sys (numpy w) k p t_val y_val s1) as (-> & -> & _ & -> & _).
    rewrite Ht, Hn. done.
Qed.

(** A turn with an entry is that run of [_update], stored back. *)
Lemma step_entry w e a k p s0 :
  entry w e a = Some (k, p, s0) ->
  let r := LivePlot._update w (MainApp.us a) k p s0 in
  MainApp.plots (step w e a) = <[k := fst r]> (MainApp.plots a) /\
  MainApp.sys (step w e a) = snd r /\
  MainApp.us (step w e a) = MainApp.us a /\
  MainApp.next_win a <= MainApp.next_win (step w e a).
Proof.
  destruct e as [[] | | id | |]; simpl; try discriminate.
  - intros [= <- <- <-]. unfold MainApp._plot_inlet, MainApp.open_plot, LivePlot.__init__.
    destruct (LivePlot._update _ _ _ _ _). simpl. repeat split; lia.
  - intros [= <- <- <-]. unfold MainApp._plot_outlet, MainApp.open_plot, LivePlot.__init__.
    destruct (LivePlot._update _ _ _ _ _). simpl. repeat split; lia.
  - destruct (timers (MainApp.sys a) !! id) as [k' |]; [| discriminate].
    destruct (MainApp.plots a !! k') as [p' |] eqn:Hp; [| discriminate].
    intros [= <- <- <-]. unfold MainApp.run_update. simpl. rewrite Hp.
    destruct (LivePlot._update _ _ _ _ _). simpl. repeat split; lia.
Qed.

Lemma entry_window w e a k p s0 :
  Inv w a -> entry w e a = Some (k, p, s0) ->
  plot_ok p /\ timers s0 = match e with
                           | Timer id => delete id (timers (MainApp.sys a))
                           | _ => timers (MainApp.sys a)
                           end /\
  next_after s0 = next_after (MainApp.sys a) /\ ncom s0 = ncom (MainApp.sys a) /\
  ((exists b, e = Click b /\ (b = btn_inlet \/ b = btn_outlet) /\
      k = MainApp.next_win a /\ MainApp.plots a !! k = None /\
      LivePlot.x p = [] /\ LivePlot.y p = [] /\ LivePlot.interval p = UPDATE_MS) \/
   (exists id, e = Timer id /\ timers (MainApp.sys a) !! id = Some k /\
      MainApp.plots a !! k = Some p)).
Proof.
  intros H. destruct e as [[] | | id | |]; simpl; try discriminate.
  - intros [= <- <- <-]. split; [apply fresh_ok; by eexists |].
    repeat split. left. exists btn_inlet. repeat split; auto.
    destruct (MainApp.plots a !! MainApp.next_win a) eqn:Hp; [| done].
    destruct (inv_plots _ _ H _ _ Hp). lia.
  - intros [= <- <- <-]. split; [apply fresh_ok; by eexists |].
    repeat split. left. exists btn_outlet. repeat split; auto.
    destruct (MainApp.plots a !! MainApp.next_win a) eqn:Hp; [| done].
    destruct (inv_plots _ _ H _ _ Hp). lia.
  - destruct (timers (MainApp.sys a) !! id) as [k' |] eqn:Hid; [| discriminate].
    destruct (MainApp.plots a !! k') as [p' |] eqn:Hp; [| discriminate].
    intros [= <- <- <-]. split; [apply (inv_plots _ _ H _ _ Hp) |].
    repeat split. right. exists id. done.
Qed.

Lemma set_running_frame w v a :
  let a' := MainApp.callback
              (UniSimConnector.set_running w (MainApp.us a) v (MainApp.sys a)) a in
  MainApp.plots a' = MainApp.plots a /\ MainApp.next_win a' = MainApp.next_win a /\
  timers (MainApp.sys a') = timers (MainApp.sys a).
Proof.
  unfold UniSimConnector.set_running, com_do.
  destruct (UniSimConnector.connected _); [| done].
  destruct (UniSimConnector.sim _); [| done].
  destruct (com_step _ _ _); done.
Qed.

(** A turn without an entry leaves every chart as it is, up to the value of
    the slider, and queues nothing. *)
Lemma step_no_entry w e a :
  entry w e a = None ->
  (forall k p', MainApp.plots (step w e a) !! k = Some p' ->
     exists p, MainApp.plots a !! k = Some p /\
               (p' = p \/ exists v, p' = LivePlot.set_interval v p)) /\
  (forall id k, timers (MainApp.sys (step w e a)) !! id = Some k ->
     timers (MainApp.sys a) !! id = Some k) /\
  MainApp.next_win (step w e a) = MainApp.next_win a.
Proof.
  destruct e as [[] | cw ch png | id | k v | k]; simpl; try discriminate; intros He.
  - unfold MainApp._start_sim. destruct (UniSimConnector.connected _).
    + destruct (set_running_frame w 1 a) as (Hp & Hn & Ht).
      unfold UniSimConnector.start. rewrite Hp, Hn, Ht. repeat split; eauto.
    + simpl. repeat split; eauto.
  - unfold MainApp._stop_sim. destruct (UniSimConnector.connected _).
    + destruct (set_running_frame w 0 a) as (Hp & Hn & Ht).
      unfold UniSimConnector.stop. rewrite Hp, Hn, Ht. repeat split; eauto.
    + simpl. repeat split; eauto.
  - destruct (layout_frame w cw ch png a) as (_ & -> & -> & ->). repeat split; eauto.
  - destruct (timers (MainApp.sys a) !! id) as [k |] eqn:Hid; [| repeat split; eauto].
    destruct (MainApp.plots a !! k) as [p |] eqn:Hp; [discriminate |].
    unfold MainApp.run_update. simpl. rewrite Hp. simpl.
    repeat split; eauto.
    intros i j Hij. simpl in Hij. apply lookup_delete_Some in Hij. apply Hij.
  - destruct (MainApp.plots a !! k) as [p |] eqn:Hp; [| repeat split; eauto].
    simpl. repeat split; eauto.
    intros k' p' Hk'. apply lookup_insert_Some in Hk' as [[<- <-] | [Hne Hk']]; eauto.
  - destruct (MainApp.plots a !! k) as [p |] eqn:Hp; [| repeat split; eauto].
    simpl. repeat split.
    + intros k' p' Hk'. apply lookup_delete_Some in Hk' as [Hne Hk']. eauto.
    + unfold LivePlot._on_close. intros i j.
      destruct (LivePlot._after_id p); simpl; [| done].
      intros Hij. apply lookup_delete_Some in Hij. apply Hij.
Qed.

(** A window that is out of the loop stays out. *)
Lemma stopped_step w e a k bx by_ :
  stopped k bx by_ a -> stopped k bx by_ (step w e a).
Proof.
  intros (Hk & Hidle & Hbuf).
  destruct (entry w e a) as [[[k' p] s0] |] eqn:He.
  - destruct (step_entry _ _ _ _ _ _ He) as (Hpl & Hsys & _ & Hnw).
    assert (Hne : k' <> k /\ forall id, timers s0 !! id <> Some k).
    { destruct e as [[] | | id | |]; simpl in He; try discriminate.
      - inversion He; subst. split; [lia | apply Hidle].
      - inversion He; subst. split; [lia | apply Hidle].
      - destruct (timers (MainApp.sys a) !! id) as [k'' |] eqn:Hid; [| discriminate].
        destruct (MainApp.plots a !! k''); [| discriminate].
        inversion He; subst. split.
        + intros ->. apply (Hidle _ Hid).
        + intros i Hi. simpl in Hi. apply lookup_delete_Some in Hi.
          apply (Hidle i), Hi. }
    destruct Hne as (Hne & Hidle0).
    split; [lia |]. split.
    + rewrite Hsys. intros id Hid.
      destruct (update_timers w (MainApp.us a) k' p s0)
        as [(Ht & _) | (Ht & _)]; rewrite Ht in Hid.
      * apply (Hidle0 _ Hid).
      * apply lookup_insert_Some in Hid as [[_ ?] | [_ Hid]]; [done |].
        apply (Hidle0 _ Hid).
    + rewrite Hpl. intros q. rewrite lookup_insert_ne by done. apply Hbuf.
  - destruct (step_no_entry _ _ _ He) as (Hpl & Ht & Hnw).
    split; [lia |]. split.
    + intros id Hid. apply (Hidle id), Ht, Hid.
    + intros q Hq. destruct (Hpl _ _ Hq) as (q0 & Hq0 & [-> | [v ->]]);
        apply (Hbuf _ Hq0).
Qed.

Lemma stopped_run_from w a evs k bx by_ :
  stopped k bx by_ a -> stopped k bx by_ (run_from w a evs).
Proof.
  revert a. induction evs as [| e evs IH]; intros a H; simpl; [done |].
  apply IH, stopped_step, H.
Qed.

(** ** The automation calls of a run *)

Lemma elem_of_coms c tr : c ∈ coms tr <-> Com c ∈ tr.
Proof.
  unfold coms. rewrite list_elem_of_omap. split.
  - intros (e & He & Hc). destruct e; inversion Hc; subst. done.
  - intros H. exists (Com c). done.
Qed.

Lemma init_coms w :
  coms (trace (MainApp.sys (MainApp.__init__ w (boot w)))) =
  take (if win32com w then attempts w 0 (connect_calls w) else 0) (connect_calls w).
Proof.
  destruct (init_fields w) as (_ & -> & _).
  destruct (connector_init_spec w (emit (Tk "UniSim Live Pressure Viewer") (boot w)))
    as (_ & _ & _ & Hc & _).
  simpl in Hc. rewrite Hc, coms_app. simpl.
  destruct (boot_fields w) as (-> & _ & _ & -> & _). reflexivity.
Qed.

(** The calls of a run are those of the constructor followed by readings of
    the loop. *)
Lemma run_coms w evs :
  exists l,
    coms (trace (MainApp.sys (run w evs))) =
      coms (trace (MainApp.sys (MainApp.__init__ w (boot w)))) ++ l /\
    Forall (fun c => loop_effect (Com c)) l.
Proof.
  destruct (inv_trace _ _ (Inv_run w evs)) as (l & -> & HF).
  exists (coms l). rewrite coms_app. split; [done |].
  apply Forall_forall. intros c Hc. apply elem_of_coms in Hc.
  rewrite Forall_forall in HF. apply HF, Hc.
Qed.

Lemma connect_calls_connecting w :
  Forall (fun c => connecting c = true) (connect_calls w).
Proof. repeat constructor. Qed.


Lemma reading_stream us g name c :
  us_named us -> stream_of g = Some name -> reading us g = Some c ->
  c = PressureValue name.
Proof.
  intros [Hin Hout] Hg H. destruct g; simpl in *; inversion Hg; subst.
  - destruct Hin as [Hi | Hi]; rewrite Hi in H; inversion H. reflexivity.
  - destruct Hout as [Ho | Ho]; rewrite Ho in H; inversion H. reflexivity.
Qed.

Lemma reading_time us c : reading us us_sim_time = Some c -> c = GetTime.
Proof. simpl. destruct (UniSimConnector.sim us); intros [= <-]; done. Qed.

(** A successful update of a reachable window: what was read and what the
    window becomes. *)
Lemma update_returns w a e k p s0 t_val y_val s1 :
  Inv w a -> entry w e a = Some (k, p, s0) ->
  LivePlot.poll w (MainApp.us a) p s0 = (Returns (t_val, y_val), s1) ->
  exists name,
    stream_of (LivePlot.y_get p) = Some name /\
    com_read w (ncom (MainApp.sys a)) GetTime = Returns t_val /\
    com_read w (S (ncom (MainApp.sys a))) (PressureValue name) = Returns y_val /\
    s1 = called (PressureValue name) (called GetTime s0) /\
    MainApp.plots (step w e a) !! k =
      Some (fst (LivePlot.redraw (numpy w) k p t_val y_val s1)) /\
    MainApp.sys (step w e a) = snd (LivePlot.redraw (numpy w) k p t_val y_val s1).
Proof.
  intros H He Hp.
  destruct (entry_window _ _ _ _ _ _ H He) as (Hok & _ & _ & Hn & _).
  destruct (step_entry _ _ _ _ _ _ He) as (Hpl & Hsys & _).
  destruct (poll_returns _ _ _ _ _ _ _ Hp) as (ct & cy & Hct & Hcy & Ht & Hy & ->).
  destruct (ok_y_get _ Hok) as [name Hname]. exists name.
  rewrite (ok_t_get _ Hok) in Hct. apply reading_time in Hct as ->.
  apply (reading_stream _ _ _ _ (Inv_named _ _ H) Hname) in Hcy as ->.
  rewrite Hn in Ht, Hy. repeat split; try done.
  - rewrite Hpl, lookup_insert_eq. unfold LivePlot._update. rewrite Hp. reflexivity.
  - rewrite Hsys. unfold LivePlot._update. rewrite Hp. reflexivity.
Qed.

(** An update in which a getter raises. *)
Lemma update_raises w a e k p s0 msg s1 :
  entry w e a = Some (k, p, s0) ->
  LivePlot.poll w (MainApp.us a) p s0 = (Raises msg, s1) ->
  MainApp.plots (step w e a) = <[k := p]> (MainApp.plots a) /\
  MainApp.sys (step w e a) = emit (showerror "Data error" msg) s1.
Proof.
  intros He Hp. destruct (step_entry _ _ _ _ _ _ He) as (Hpl & Hsys & _).
  rewrite Hpl, Hsys. unfold LivePlot._update. rewrite Hp. done.
Qed.



(** ** Connecting *)

Lemma attempts_bounds w i cs :
  attempts w i cs <= length cs /\ (cs <> [] -> 1 <= attempts w i cs).
Proof.
  revert i. induction cs as [| c cs IH]; intros i; simpl; [done |].
  destruct (com_step w i c); [lia |].
  destruct (IH (S i)). lia.
Qed.

Lemma filter_connecting_loop l :
  Forall (fun c => loop_effect (Com c)) l -> filter (fun c => connecting c = true) l = [].
Proof.
  induction 1 as [| c l Hc _ IH]; [done |].
  rewrite filter_cons, IH. destruct (decide (connecting c = true)) as [Ht | _]; [| done].
  destruct c; simpl in *; congruence.
Qed.

Lemma filter_connecting_all l :
  Forall (fun c => connecting c = true) l -> filter (fun c => connecting c = true) l = l.
Proof.
  induction 1 as [| c l Hc _ IH]; [done |].
  rewrite filter_cons, IH. destruct (decide (connecting c = true)); done.
Qed.

(** C4. The connection is made by the constructor of [UniSimConnector] and
    nowhere else: its calls are a prefix of dispatch, show, open the case,
    show, flowsheet, resolve "Inlet", resolve "Outlet"; none is made without
    pywin32 and the dispatch is made once with it; [connected] is set exactly
    when pywin32 is present and all seven calls return; and whatever events
    follow, the connector stays as constructed and no connecting call is
    made again. *)
Theorem connects_once_at_construction :
  forall (w : World) (evs : list event),
    let a0 := MainApp.__init__ w (boot w) in
    let a := run w evs in
    let n := if win32com w then attempts w 0 (connect_calls w) else 0 in
    coms (trace (MainApp.sys a0)) = take n (connect_calls w) /\
    (win32com w = false -> n = 0) /\
    (win32com w = true -> 1 <= n <= 7) /\
    connect_calls w !! 0 = Some (Dispatch "UniSimDesign.Application") /\
    (UniSimConnector.connected (MainApp.us a0) = true <->
       win32com w = true /\
       forall i c, connect_calls w !! i = Some c -> com_step w i c = None) /\
    (UniSimConnector.connected (MainApp.us a0) = true ->
       coms (trace (MainApp.sys a0)) = connect_calls w /\
       UniSimConnector.sim (MainApp.us a0) = Some (SIM_PATH w) /\
       UniSimConnector.inlet (MainApp.us a0) = Some "Inlet" /\
       UniSimConnector.outlet (MainApp.us a0) = Some "Outlet") /\
    MainApp.us a = MainApp.us a0 /\
    filter (fun c => connecting c = true) (coms (trace (MainApp.sys a))) =
      take n (connect_calls w) /\
    length (filter (fun c => c = Dispatch "UniSimDesign.Application")
              (coms (trace (MainApp.sys a)))) = (if win32com w then 1 else 0).
Proof.
  intros w evs a0 a n.
  pose proof (init_coms w) as Hc0. fold a0 n in Hc0.
  destruct (init_fields w) as (Hus & Hsys & _). fold a0 in Hus, Hsys.
  destruct (connector_init_spec w (emit (Tk "UniSim Live Pressure Viewer") (boot w)))
    as (_ & _ & _ & _ & _ & Hconn & Hfull & _).
  cbv zeta in Hconn, Hfull. rewrite <- Hus in Hconn, Hfull.
  change (ncom (emit _ (boot w))) with (ncom (boot w)) in Hconn, Hfull.
  destruct (boot_fields w) as (Hn0 & _). rewrite Hn0 in Hconn, Hfull.
  destruct (attempts_bounds w 0 (connect_calls w)) as (Hle & Hge).
  change (length (connect_calls w)) with 7 in Hle.
  destruct (run_coms w evs) as (l & Hl & HF). fold a a0 in Hl.
  assert (Hfilter : filter (fun c => connecting c = true) (coms (trace (MainApp.sys a)))
                    = take n (connect_calls w)).
  { rewrite Hl, Hc0, filter_app, (filter_connecting_loop l HF).
    rewrite app_nil_r. apply filter_connecting_all.
    apply Forall_take, connect_calls_connecting. }
  split; [exact Hc0 |].
  split; [intros Hw; subst n; rewrite Hw; reflexivity |].
  split; [intros Hw; subst n; rewrite Hw; split; [apply Hge; done | lia] |].
  split; [reflexivity |].
  split.
  { rewrite Hconn. split; intros [Hw Hall]; (split; [done |]); intros i c Hi;
      specialize (Hall i c Hi); rewrite Nat.add_0_r in *; done. }
  split.
  { intros Hcon. destruct (Hfull Hcon) as (Hn & Hrec).
    rewrite Hc0. fold n in Hn. rewrite Hn, Hrec. done. }
  split; [apply (inv_us _ _ (Inv_run w evs)) |].
  split; [exact Hfilter |].
  assert (Hsub : filter (fun c => c = Dispatch "UniSimDesign.Application")
                   (coms (trace (MainApp.sys a)))
               = filter (fun c => c = Dispatch "UniSimDesign.Application")
                   (take n (connect_calls w))).
  { rewrite Hl, Hc0, filter_app.
    replace (filter _ l) with (@nil com_call); [apply app_nil_r |].
    symmetry. clear Hl. induction HF as [| c l' Hc _ IH]; [done |].
    rewrite filter_cons, <- IH.
    destruct (decide (c = Dispatch "UniSimDesign.Application")) as [-> | _]; done. }
  rewrite Hsub. subst n. destruct (win32com w); [| reflexivity].
  assert (Hn : 1 <= attempts w 0 (connect_calls w) <= 7)
    by (split; [apply Hge; done | exact Hle]).
  destruct (attempts w 0 (connect_calls w)) as [| m]; [lia |].
  do 7 (destruct m as [| m]; [reflexivity |]). simpl in Hn. lia.
Qed.

(** ** The platform guard *)

(** C5. Run on a platform other than "win32", the script shows the
    "Unsupported OS" error dialog and exits with status 1; up to there it
    has built no main window and made no automation call, whatever events
    were to come. *)
Theorem other_platform_exits_with_1 :
  forall (w : World) (evs : list event),
    platform w <> "win32" ->
    exists s,
      main w evs = exited 1 s /\
      trace s = trace (boot w) ++
                [showerror "Unsupported OS" "This application runs only on Windows."] /\
      ncom s = 0 /\
      (forall c, Com c ∉ trace s) /\
      (forall ttl, Tk ttl ∉ trace s) /\
      (forall k ttl, Toplevel k ttl ∉ trace s).
Proof.
  intros w evs Hp. unfold main.
  destruct (String.eqb_spec (platform w) "win32") as [Heq | _]; [done |].
  simpl. eexists. split; [reflexivity |]. simpl.
  destruct (boot_fields w) as (Hn & _ & _ & _ & HF).
  split; [reflexivity |]. split; [exact Hn |].
  rewrite Forall_forall in HF.
  repeat split; intros; intros Hin;
    apply elem_of_app in Hin as [Hin | Hin];
    try (apply HF in Hin; exact Hin);
    apply list_elem_of_singleton in Hin; discriminate Hin.
Qed.

Lemma other_platform_exits_with_1_witness :
  exists s, main w_linux [Click btn_inlet] = exited 1 s /\ ncom s = 0.
Proof.
  destruct (other_platform_exits_with_1 w_linux [Click btn_inlet]) as (s & Hm & _ & Hn & _).
  - simpl. discriminate.
  - exists s. split; [exact Hm | exact Hn].
Defined.

(** ** Layout *)

(** C6. A layout pass on a canvas at least 10 wide and 10 high shows as
    background the PNG resized to the canvas size, or a grey image of that
    size when the file is missing, at the origin and lowest in the display
    list, and puts the four buttons at 0.15w 0.25h, 0.75w 0.65h, 0.05w 0.90h
    and 0.20w 0.90h above it; on a smaller canvas the pass changes
    nothing. *)
Theorem layout_places_background_and_buttons :
  forall (w : World) (evs : list event) (cw ch : Z) (png : bool),
    let a := run w evs in
    let a' := step w (Configure cw ch png) a in
    let c := MainApp.canvas a' in
    ((10 <= cw)%Z /\ (10 <= ch)%Z ->
       Canvas.shown c = Some (if png then Canvas.open_resize (IMAGE_PATH w) cw ch
                              else Canvas.new_rgb cw ch "#D0D0D0") /\
       MainApp.bg_img a' = Canvas.shown c /\
       Canvas.position c Canvas.bg_id = (F.zero, F.zero) /\
       Canvas.position c Canvas.id_inlet =
         (F.mul64 (F.lit 15 100) (F.of_int cw), F.mul64 (F.lit 25 100) (F.of_int ch)) /\
       Canvas.position c Canvas.id_outlet =
         (F.mul64 (F.lit 75 100) (F.of_int cw), F.mul64 (F.lit 65 100) (F.of_int ch)) /\
       Canvas.position c Canvas.id_start =
         (F.mul64 (F.lit 5 100) (F.of_int cw), F.mul64 (F.lit 90 100) (F.of_int ch)) /\
       Canvas.position c Canvas.id_stop =
         (F.mul64 (F.lit 20 100) (F.of_int cw), F.mul64 (F.lit 90 100) (F.of_int ch)) /\
       Canvas.display c =
         [Canvas.bg_id; Canvas.id_inlet; Canvas.id_outlet; Canvas.id_start; Canvas.id_stop]) /\
    ((cw < 10)%Z \/ (ch < 10)%Z -> a' = a).
Proof.
  intros w evs cw ch png a a' c. pose proof (Inv_run w evs) as H. fold a in H.
  subst c a'. simpl. unfold MainApp._layout. split.
  - intros [Hw Hh].
    destruct (Z.ltb_spec cw 10); [lia |]. destruct (Z.ltb_spec ch 10); [lia |].
    simpl. rewrite (inv_display _ _ H), (inv_bg _ _ H).
    repeat split; reflexivity.
  - intros Hsmall.
    destruct (Z.ltb_spec cw 10); [reflexivity |].
    destruct (Z.ltb_spec ch 10); [reflexivity | lia].
Qed.

Lemma layout_places_background_and_buttons_witness :
  Canvas.position (MainApp.canvas (step w_ok (Configure 880 520 false) (run w_ok [])))
    Canvas.id_inlet = (F.of_int 132, F.of_int 130) /\
  step w_ok (Configure 1 1 true) (run w_ok []) = run w_ok [].
Proof.
  destruct (layout_places_background_and_buttons w_ok [] 880 520 false) as (Hbig & _).
  destruct (layout_places_background_and_buttons w_ok [] 1 1 true) as (_ & Hsmall).
  split.
  - destruct Hbig as (_ & _ & _ & Hin & _); [lia |]. rewrite Hin. reflexivity.
  - apply Hsmall. lia.
Defined.

(** ** The sample buffers *)

(** C8. In every state of a run the two buffers of a chart have one length,
    at most 1200; an update that reads both values appends the pair, each
    value to its buffer, dropping the oldest element of a full buffer; so a
    buffer holds the latest samples, at most 1200, in the order they came. *)
Theorem buffers_bounded_fifo :
  forall (w : World) (evs : list event),
    let a := run w evs in
    MAX_POINTS = 1200 /\
    (forall k p, chart a k = Some p ->
       length (LivePlot.x p) = length (LivePlot.y p) /\
       length (LivePlot.x p) <= 1200) /\
    (forall e k p s0 t_val y_val s1,
       entry w e a = Some (k, p, s0) ->
       LivePlot.poll w (MainApp.us a) p s0 = (Returns (t_val, y_val), s1) ->
       exists p', chart (step w e a) k = Some p' /\
         LivePlot.x p' = drop (S (length (LivePlot.x p)) - 1200) (LivePlot.x p ++ [t_val]) /\
         LivePlot.y p' = drop (S (length (LivePlot.y p)) - 1200) (LivePlot.y p ++ [y_val]) /\
         length (LivePlot.x p') = Nat.min 1200 (S (length (LivePlot.x p))) /\
         last (LivePlot.x p') = Some t_val /\ last (LivePlot.y p') = Some y_val) /\
    (forall samples : list float,
       fold_left (deque_append MAX_POINTS) samples [] =
       drop (length samples - 1200) samples).
Proof.
  intros w evs a. pose proof (Inv_run w evs) as H. fold a in H.
  split; [reflexivity |]. split; [| split].
  - intros k p Hp. destruct (inv_plots _ _ H _ _ Hp) as (_ & Hok).
    split; [apply Hok | apply (ok_max _ Hok)].
  - intros e k p s0 t_val y_val s1 He Hp.
    destruct (update_returns _ _ _ _ _ _ _ _ _ H He Hp) as (_ & _ & _ & _ & _ & Hk & _).
    destruct (entry_window _ _ _ _ _ _ H He) as (Hok & _).
    pose proof (ok_max _ Hok) as Hmax. pose proof (ok_len _ Hok) as Hlen.
    eexists. split; [exact Hk |].
    destruct (redraw_spec (numpy w) k p t_val y_val s1) as (? & ? & _ & ->). simpl.
    rewrite (deque_append_length MAX_POINTS) by lia.
    rewrite !(deque_append_last MAX_POINTS) by apply max_points_pos.
    rewrite !(deque_append_drop MAX_POINTS) by lia.
    repeat split; reflexivity.
  - intros samples. apply deque_fold.
Qed.

(** ** A getter that raises *)

Lemma entry_fresh_window w a e k p s0 :
  Inv w a -> entry w e a = Some (k, p, s0) ->
  k < MainApp.next_win (step w e a) /\
  forall id, timers s0 !! id <> Some k.
Proof.
  intros H He.
  destruct (step_entry _ _ _ _ _ _ He) as (_ & _ & _ & Hnw).
  destruct e as [[] | | id | |]; simpl in He; try discriminate.
  - inversion He; subst. split.
    + simpl. unfold MainApp._plot_inlet, MainApp.open_plot.
      destruct (LivePlot.__init__ _ _ _ _ _ _ _). simpl. lia.
    + simpl. intros id Hid. destruct (inv_timers _ _ H _ _ Hid) as (_ & q & Hq & _).
      destruct (inv_plots _ _ H _ _ Hq). lia.
  - inversion He; subst. split.
    + simpl. unfold MainApp._plot_outlet, MainApp.open_plot.
      destruct (LivePlot.__init__ _ _ _ _ _ _ _). simpl. lia.
    + simpl. intros id Hid. destruct (inv_timers _ _ H _ _ Hid) as (_ & q & Hq & _).
      destruct (inv_plots _ _ H _ _ Hq). lia.
  - destruct (timers (MainApp.sys a) !! id) as [k' |] eqn:Hid; [| discriminate].
    destruct (MainApp.plots a !! k') as [p' |] eqn:Hp; [| discriminate].
    inversion He; subst. split.
    + destruct (inv_plots _ _ H _ _ Hp). lia.
    + simpl. intros id' Hid'. apply lookup_delete_Some in Hid' as [Hne Hid'].
      destruct (inv_timers _ _ H _ _ Hid) as (_ & q & Hq & Hqid).
      destruct (inv_timers _ _ H _ _ Hid') as (_ & q' & Hq' & Hqid').
      rewrite Hq in Hq'. inversion Hq'; subst. congruence.
Qed.

Lemma stopped_no_entry w e a k bx by_ k' p s0 :
  stopped k bx by_ a -> entry w e a = Some (k', p, s0) -> k' <> k.
Proof.
  intros (Hk & Hidle & _) He.
  destruct e as [[] | | id | |]; simpl in He; try discriminate.
  - inversion He; subst. lia.
  - inversion He; subst. lia.
  - destruct (timers (MainApp.sys a) !! id) as [k'' |] eqn:Hid; [| discriminate].
    destruct (MainApp.plots a !! k''); [| discriminate].
    inversion He; subst. intros ->. apply (Hidle _ Hid).
Qed.

(** C2. When the time or the pressure getter raises during an update of a
    chart, the program answers with the "Data error" dialog and nothing
    else: each getter has been tried at most once, the window object with
    its buffers x and y is as it was, nothing is queued for the window, and
    from then on no update of that window is entered again, whatever events
    follow. *)
Theorem getter_exception_stops_chart :
  forall (w : World) (evs : list event) (e : event) (k : nat) (p : LivePlot.t)
         (s0 s1 : Sys) (msg : string),
    let a := run w evs in
    entry w e a = Some (k, p, s0) ->
    LivePlot.poll w (MainApp.us a) p s0 = (Raises msg, s1) ->
    let a' := step w e a in
    MainApp.sys a' = emit (showerror "Data error" msg) s1 /\
    (exists cs, trace s1 = trace s0 ++ (Com <$> cs) /\ length cs <= 2) /\
    timers (MainApp.sys a') = timers s0 /\
    chart a' k = Some p /\
    (forall id, timers (MainApp.sys a') !! id <> Some k) /\
    forall evs',
      let a'' := run_from w a' evs' in
      (forall id, timers (MainApp.sys a'') !! id <> Some k) /\
      (forall q, chart a'' k = Some q ->
         LivePlot.x q = LivePlot.x p /\ LivePlot.y q = LivePlot.y p) /\
      (forall e' k' p' s', entry w e' a'' = Some (k', p', s') -> k' <> k).
Proof.
  intros w evs e k p s0 s1 msg a He Hp a'.
  pose proof (Inv_run w evs) as H. fold a in H.
  destruct (update_raises _ _ _ _ _ _ _ _ He Hp) as (Hpl & Hsys). fold a' in Hpl, Hsys.
  destruct (poll_frame _ _ _ _ _ _ Hp) as (Ht & Hn & cs & Htr & _ & Hcs & _).
  destruct (entry_fresh_window _ _ _ _ _ _ H He) as (Hk & Hidle). fold a' in Hk.
  assert (Hstop : stopped k (LivePlot.x p) (LivePlot.y p) a').
  { split; [exact Hk |]. split.
    - rewrite Hsys. simpl. rewrite Ht. exact Hidle.
    - intros q. rewrite Hpl, lookup_insert_eq. intros [= <-]. done. }
  split; [exact Hsys |]. split; [eauto |].
  split; [rewrite Hsys; exact Ht |].
  split; [unfold chart; rewrite Hpl; apply lookup_insert_eq |].
  split; [apply Hstop |].
  intros evs' a''.
  pose proof (stopped_run_from w a' evs' _ _ _ Hstop) as Hstop'. fold a'' in Hstop'.
  split; [apply Hstop' |]. split; [apply Hstop' |].
  intros e' k' p' s' He'. eapply stopped_no_entry; eauto.
Qed.

Lemma getter_exception_stops_chart_witness :
  let a' := step w_flaky (Timer 0) (run w_flaky [Click btn_inlet]) in
  last (trace (MainApp.sys a')) =
    Some (showerror "Data error" "The RPC server is unavailable.") /\
  timers (MainApp.sys a') = ∅.
Proof.
  destruct (getter_exception_stops_chart w_flaky [Click btn_inlet] (Timer 0) 0
              (fst (LivePlot.__init__ w_flaky (MainApp.us (run w_flaky [])) 0
                      "Inlet Pressure(kPa)" us_inlet_pressure us_sim_time
                      (MainApp.sys (run w_flaky []))))
              (tk_take 0 (MainApp.sys (run w_flaky [Click btn_inlet])))
              (called GetTime (tk_take 0 (MainApp.sys (run w_flaky [Click btn_inlet]))))
              "The RPC server is unavailable.")
    as (Hsys & _ & Ht & _).
  - vm_compute. reflexivity.
  - vm_compute. reflexivity.
  - split.
    + rewrite Hsys. apply last_snoc.
    + rewrite Ht. vm_compute. reflexivity.
Defined.

(** ** The refresh loop *)



(** ** Axis limits *)


Lemma py_max0_cases v :
  (F.gtb v F.zero = true /\ py_max0 v = v) \/
  (F.gtb v F.zero = false /\ py_max0 v = F.zero).
Proof. unfold py_max0. destruct (F.gtb v F.zero); auto. Qed.

Lemma add_zero_sixty r :
  F.to_f64 (np.add r F.zero LivePlot.sixty) = LivePlot.sixty.
Proof. destruct r; vm_compute; reflexivity. Qed.











(** * Further properties of the code *)

(** ** What a window shows *)

Lemma fresh_sync title yg tg : plot_sync (LivePlot.fresh title yg tg).
Proof. split; simpl; done. Qed.

Lemma redraw_sync r k p t_val y_val s :
  plot_sync p -> plot_sync (fst (LivePlot.redraw r k p t_val y_val s)).
Proof.
  intros [Hline Hxlim Hmin Hmax Hafter].
  destruct (redraw_spec r k p t_val y_val s) as (a & b & _ & ->). simpl.
  pose proof (deque_append_nonempty MAX_POINTS (LivePlot.x p) t_val max_points_pos).
  split; simpl; try done.
  - destruct (LivePlot.update_ylim p a b); done.
  - destruct (LivePlot.update_ylim p a b); done.
Qed.

Lemma set_interval_sync v p : plot_sync p -> plot_sync (LivePlot.set_interval v p).
Proof. intros []. split; simpl; done. Qed.

Lemma step_next_after w e a :
  next_after (MainApp.sys a) <= next_after (MainApp.sys (step w e a)).
Proof.
  destruct (entry w e a) as [[[k p] s0] |] eqn:He.
  - destruct (step_entry _ _ _ _ _ _ He) as (_ & -> & _).
    assert (Hn : next_after s0 = next_after (MainApp.sys a)).
    { destruct e as [[] | | id | |]; simpl in He; try discriminate.
      - inversion He; reflexivity.
      - inversion He; reflexivity.
      - destruct (timers (MainApp.sys a) !! id); [| discriminate].
        destruct (MainApp.plots a !! n); [| discriminate].
        inversion He; reflexivity. }
    destruct (update_timers w (MainApp.us a) k p s0) as [(_ & -> & _) | (_ & -> & _)]; lia.
  - destruct e as [[] | cw ch png | id | k v | k]; simpl in *; try discriminate.
    + unfold MainApp._start_sim, UniSimConnector.start, UniSimConnector.set_running, com_do.
      destruct (UniSimConnector.connected _); [| simpl; lia].
      destruct (UniSimConnector.sim _); [destruct (com_step _ _ _) |]; simpl; lia.
    + unfold MainApp._stop_sim, UniSimConnector.stop, UniSimConnector.set_running, com_do.
      destruct (UniSimConnector.connected _); [| simpl; lia].
      destruct (UniSimConnector.sim _); [destruct (com_step _ _ _) |]; simpl; lia.
    + destruct (layout_frame w cw ch png a) as (_ & _ & _ & ->). lia.
    + destruct (timers (MainApp.sys a) !! id) as [k |]; [| lia].
      unfold MainApp.run_update. simpl.
      destruct (MainApp.plots a !! k); [discriminate | simpl; lia].
    + destruct (MainApp.plots a !! k); simpl; lia.
    + destruct (MainApp.plots a !! k) as [p |]; [| lia]. simpl.
      unfold LivePlot._on_close. destruct (LivePlot._after_id p); simpl; lia.
Qed.

Lemma Sync_init w : Sync (MainApp.__init__ w (boot w)).
Proof.
  destruct (init_fields w) as (_ & _ & Hplots & _).
  split; intros *; rewrite Hplots, lookup_empty; discriminate.
Qed.

Lemma Sync_step w e a : Inv w a -> Sync a -> Sync (step w e a).
Proof.
  intros H [Hp Hid Hun].
  pose proof (step_next_after w e a) as Hmono.
  destruct (entry w e a) as [[[k p] s0] |] eqn:He.
  - destruct (step_entry _ _ _ _ _ _ He) as (Hpl & Hsys & _).
    destruct (entry_window _ _ _ _ _ _ H He) as (_ & _ & Hn & _ & Hwhich).
    assert (Hp0 : plot_sync p /\
                  (forall id, LivePlot._after_id p = Some id ->
                              id < next_after (MainApp.sys a))).
    { destruct Hwhich as [(b & -> & [-> | ->] & _) | (id & -> & _ & Hk)];
        simpl in He; try (inversion He; subst; split; [apply fresh_sync | discriminate]).
      split; [eapply Hp, Hk | intros i; eapply Hid, Hk]. }
    destruct Hp0 as (Hps & Hpid).
    set (r := LivePlot._update w (MainApp.us a) k p s0) in *.
    assert (Hr : plot_sync (fst r) /\
                 (forall id, LivePlot._after_id (fst r) = Some id ->
                    id < next_after (snd r) /\
                    (id < next_after (MainApp.sys a) -> LivePlot._after_id p = Some id))).
    { subst r. destruct (update_cases w (MainApp.us a) k p s0)
        as [(msg & s1 & Hpoll & ->) | (t_val & y_val & s1 & Hpoll & ->)];
        destruct (poll_frame _ _ _ _ _ _ Hpoll) as (_ & Hn1 & _).
      - simpl. split; [done |]. intros id Hi. split; [| done].
        rewrite Hn1, Hn. apply Hpid, Hi.
      - split; [apply redraw_sync, Hps |].
        destruct (redraw_sys (numpy w) k p t_val y_val s1) as (_ & -> & _ & -> & _).
        intros id [= <-]. rewrite Hn1, Hn. split; [lia | intros Hlt; exfalso; lia]. }
    destruct Hr as (Hrs & Hrid).
    split.
    + intros k' p'. rewrite Hpl. intros Hk'.
      apply lookup_insert_Some in Hk' as [[<- <-] | [_ Hk']]; [done | eapply Hp, Hk'].
    + intros k' p' id. rewrite Hpl, Hsys. intros Hk' Hi.
      apply lookup_insert_Some in Hk' as [[<- <-] | [_ Hk']].
      * apply Hrid, Hi.
      * rewrite Hsys in Hmono. specialize (Hid _ _ _ Hk' Hi). lia.
    + intros k1 k2 p1 p2 id. rewrite Hpl. intros H1 H2 Hi1 Hi2.
      apply lookup_insert_Some in H1 as [[<- <-] | [Hne1 H1]];
        apply lookup_insert_Some in H2 as [[<- <-] | [Hne2 H2]]; try done.
      * destruct (Hrid _ Hi1) as (_ & Hback).
        specialize (Hid _ _ _ H2 Hi2). specialize (Hback Hid).
        destruct Hwhich as [(b & _ & _ & _ & _ & Hx & _) | (i & _ & _ & Hk)].
        -- apply (sync_after _ Hps) in Hx. congruence.
        -- eapply Hun; eauto.
      * destruct (Hrid _ Hi2) as (_ & Hback).
        specialize (Hid _ _ _ H1 Hi1). specialize (Hback Hid).
        destruct Hwhich as [(b & _ & _ & _ & _ & Hx & _) | (i & _ & _ & Hk)].
        -- apply (sync_after _ Hps) in Hx. congruence.
        -- eapply Hun; eauto.
      * eapply Hun; eauto.
  - destruct (step_no_entry _ _ _ He) as (Hpl & _ & _).
    split.
    + intros k p Hk. destruct (Hpl _ _ Hk) as (q & Hq & [-> | [v ->]]).
      * eapply Hp, Hq.
      * apply set_interval_sync. eapply Hp, Hq.
    + intros k p id Hk Hi. destruct (Hpl _ _ Hk) as (q & Hq & [-> | [v ->]]);
        specialize (Hid _ _ _ Hq Hi); lia.
    + intros k1 k2 p1 p2 id H1 H2 Hi1 Hi2.
      destruct (Hpl _ _ H1) as (q1 & Hq1 & [-> | [v1 ->]]);
        destruct (Hpl _ _ H2) as (q2 & Hq2 & [-> | [v2 ->]]); eapply Hun; eauto.
Qed.

Lemma Sync_run w evs : Sync (run w evs).
Proof.
  unfold run. generalize (Inv_init w) (Sync_init w).
  generalize (MainApp.__init__ w (boot w)).
  induction evs as [| e evs IH]; intros a H Hs; simpl; [done |].
  apply IH; [apply Inv_step, H | apply Sync_step; done].
Qed.



(** X3. In every state of a run a pending callback belongs to an open
    chart window that has data and records this very id; a window has at
    most one pending callback; and ids are not handed out twice. *)
Theorem pending_callbacks_belong_to_open_windows :
  forall (w : World) (evs : list event),
    let a := run w evs in
    (forall id k, timers (MainApp.sys a) !! id = Some k ->
       id < next_after (MainApp.sys a) /\
       exists p, chart a k = Some p /\ LivePlot._after_id p = Some id /\
                 LivePlot.x p <> []) /\
    (forall id1 id2 k,
       timers (MainApp.sys a) !! id1 = Some k ->
       timers (MainApp.sys a) !! id2 = Some k -> id1 = id2) /\
    (forall e, next_after (MainApp.sys a) <= next_after (MainApp.sys (step w e a)) /\
       forall id k, timers (MainApp.sys (step w e a)) !! id = Some k ->
         timers (MainApp.sys a) !! id = Some k \/ id = next_after (MainApp.sys a)).
Proof.
  intros w evs a. pose proof (Inv_run w evs) as H. pose proof (Sync_run w evs) as Hs.
  fold a in H, Hs. split; [| split].
  - intros id k Hid. destruct (inv_timers _ _ H _ _ Hid) as (Hlt & p & Hp & Hpid).
    split; [exact Hlt |]. exists p. repeat split; try done.
    intros Hx. apply (sync_after _ (sync_plots _ Hs _ _ Hp)) in Hx. congruence.
  - intros id1 id2 k H1 H2.
    destruct (inv_timers _ _ H _ _ H1) as (_ & p1 & Hp1 & Hi1).
    destruct (inv_timers _ _ H _ _ H2) as (_ & p2 & Hp2 & Hi2).
    rewrite Hp1 in Hp2. inversion Hp2; subst. congruence.
  - intros e. split; [apply step_next_after |]. intros id k Hid.
    destruct (entry w e a) as [[[k' p] s0] |] eqn:He.
    + destruct (step_entry _ _ _ _ _ _ He) as (_ & Hsys & _).
      destruct (entry_window _ _ _ _ _ _ H He) as (_ & Ht0 & Hn0 & _).
      rewrite Hsys in Hid.
      assert (Hsub : forall i j, timers s0 !! i = Some j ->
                timers (MainApp.sys a) !! i = Some j).
      { intros i j. rewrite Ht0. destruct e; try done.
        intros Hij. apply lookup_delete_Some in Hij. apply Hij. }
      destruct (update_timers w (MainApp.us a) k' p s0) as [(Ht & _) | (Ht & _)];
        rewrite Ht in Hid.
      * left. apply Hsub, Hid.
      * apply lookup_insert_Some in Hid as [[<- _] | [_ Hid]].
        -- right. exact Hn0.
        -- left. apply Hsub, Hid.
    + left. apply (step_no_entry _ _ _ He), Hid.
Qed.

(** ** Closing a window *)

Lemma closed_step w e a k :
  k < MainApp.next_win a -> MainApp.plots a !! k = None ->
  (forall id, timers (MainApp.sys a) !! id <> Some k) ->
  k < MainApp.next_win (step w e a) /\ MainApp.plots (step w e a) !! k = None.
Proof.
  intros Hk Hnone Hidle.
  destruct (stopped_step w e a k [] []) as (Hk' & _ & _).
  { split; [done |]. split; [done |]. intros p. rewrite Hnone. discriminate. }
  split; [exact Hk' |].
  destruct (entry w e a) as [[[k' p] s0] |] eqn:He.
  - destruct (step_entry _ _ _ _ _ _ He) as (-> & _).
    rewrite lookup_insert_ne; [done |].
    eapply (stopped_no_entry w e a k [] []); [| exact He].
    split; [done |]. split; [done |]. intros q. rewrite Hnone. discriminate.
  - destruct (step_no_entry _ _ _ He) as (Hpl & _).
    destruct (MainApp.plots (step w e a) !! k) as [p' |] eqn:Hp'; [| done].
    destruct (Hpl _ _ Hp') as (q & Hq & _). congruence.
Qed.

(** X2. Closing a chart window destroys it and cancels its pending
    callback, and only that: the other windows and their callbacks are as
    before and no automation call is made; whatever events follow, the
    window stays closed and nothing is queued for it. *)
Theorem closing_a_chart_stops_it :
  forall (w : World) (evs : list event) (k : nat) (p : LivePlot.t),
    let a := run w evs in
    chart a k = Some p ->
    let a' := step w (WM_DELETE_WINDOW k) a in
    chart a' k = None /\
    (forall k', k' <> k -> chart a' k' = chart a k') /\
    (forall id k', timers (MainApp.sys a') !! id = Some k' <->
                   timers (MainApp.sys a) !! id = Some k' /\ k' <> k) /\
    last (trace (MainApp.sys a')) = Some (destroy k) /\
    coms (trace (MainApp.sys a')) = coms (trace (MainApp.sys a)) /\
    forall evs',
      let a'' := run_from w a' evs' in
      chart a'' k = None /\ forall id, timers (MainApp.sys a'') !! id <> Some k.
Proof.
  intros w evs k p a Hp a'. unfold chart in *.
  pose proof (Inv_run w evs) as H. pose proof (Sync_run w evs) as Hs. fold a in H, Hs.
  destruct (inv_plots _ _ H _ _ Hp) as (Hk & _).
  assert (Hpl : MainApp.plots a' = delete k (MainApp.plots a)).
  { subst a'. simpl. rewrite Hp. reflexivity. }
  assert (Hsys : MainApp.sys a' = LivePlot._on_close k p (MainApp.sys a)).
  { subst a'. simpl. rewrite Hp. reflexivity. }
  assert (Hnw : MainApp.next_win a' = MainApp.next_win a).
  { subst a'. simpl. rewrite Hp. reflexivity. }
  assert (Ht : forall id k', timers (MainApp.sys a') !! id = Some k' <->
                timers (MainApp.sys a) !! id = Some k' /\ k' <> k).
  { intros id k'. rewrite Hsys. unfold LivePlot._on_close.
    destruct (LivePlot._after_id p) as [id0 |] eqn:Hid0; simpl.
    - rewrite lookup_delete_Some. split.
      + intros [Hne Hid]. split; [done |]. intros ->.
        destruct (inv_timers _ _ H _ _ Hid) as (_ & q & Hq & Hqid).
        rewrite Hp in Hq. inversion Hq; subst. congruence.
      + intros [Hid Hne]. split; [| done]. intros <-.
        destruct (inv_timers _ _ H _ _ Hid) as (_ & q & Hq & Hqid).
        apply Hne. eapply (sync_unique _ Hs); eauto.
    - split.
      + intros Hid. split; [done |]. intros ->.
        destruct (inv_timers _ _ H _ _ Hid) as (_ & q & Hq & Hqid).
        rewrite Hp in Hq. inversion Hq; subst. congruence.
      + intros [Hid _]. exact Hid. }
  split; [rewrite Hpl; apply lookup_delete_eq |].
  split; [intros k' Hne; rewrite Hpl; apply lookup_delete_ne; done |].
  split; [exact Ht |].
  split; [rewrite Hsys; unfold LivePlot._on_close; apply last_snoc |].
  split.
  { rewrite Hsys. unfold LivePlot._on_close.
    destruct (LivePlot._after_id p); simpl; rewrite !coms_app; simpl;
      rewrite ?app_nil_r; reflexivity. }
  intros evs'.
  assert (Hclosed : k < MainApp.next_win a' /\ MainApp.plots a' !! k = None /\
                    forall id, timers (MainApp.sys a') !! id <> Some k).
  { split; [lia |]. split; [rewrite Hpl; apply lookup_delete_eq |].
    intros id Hid. apply Ht in Hid as [_ Hne]. done. }
  clearbody a'. clear -Hclosed. revert a' Hclosed.
  induction evs' as [| e evs' IH]; intros a' (Hk & Hnone & Hidle); simpl; [done |].
  apply IH.
  destruct (closed_step w e a' k Hk Hnone Hidle) as (Hk' & Hnone').
  destruct (stopped_step w e a' k [] []) as (_ & Hidle' & _); [| done].
  split; [done |]. split; [done |]. intros q. rewrite Hnone. discriminate.
Qed.

Lemma closing_a_chart_stops_it_witness :
  let a' := step w_ok (WM_DELETE_WINDOW 0) (run w_ok [Click btn_inlet; Click btn_outlet]) in
  chart (run_from w_ok a' [Timer 0; Timer 1]) 0 = None /\
  timers (MainApp.sys a') !! 1 = Some 1.
Proof.
  destruct (closing_a_chart_stops_it w_ok [Click btn_inlet; Click btn_outlet] 0
              (fst (LivePlot.__init__ w_ok (MainApp.us (run w_ok [])) 0
                      "Inlet Pressure(kPa)" us_inlet_pressure us_sim_time
                      (MainApp.sys (run w_ok [])))))
    as (_ & _ & Ht & _ & _ & Hlater).
  - vm_compute. reflexivity.
  - split.
    + exact (proj1 (Hlater [Timer 0; Timer 1])).
    + apply Ht. split; [vm_compute; reflexivity | discriminate].
Defined.
(** X4. An open chart window changes only by an event of its own: its due
    callback, its slider or its close button.  Clicks, layout passes and the
    events of other windows leave it as it is. *)
Theorem window_changes_only_by_its_own_events :
  forall (w : World) (evs : list event) (e : event) (k : nat) (p : LivePlot.t),
    let a := run w evs in
    chart a k = Some p ->
    chart (step w e a) k <> Some p ->
    (exists id, e = Timer id /\ timers (MainApp.sys a) !! id = Some k) \/
    (exists v, e = Slide k v) \/
    e = WM_DELETE_WINDOW k.
Proof.
  intros w evs e k p a Hp Hne. unfold chart in *.
  pose proof (Inv_run w evs) as H. fold a in H.
  destruct (inv_plots _ _ H _ _ Hp) as (Hk & _).
  destruct e as [[] | cw ch png | id | k' v | k']; simpl in Hne.
  - exfalso. apply Hne. unfold MainApp._plot_inlet, MainApp.open_plot.
    destruct (LivePlot.__init__ _ _ _ _ _ _ _). simpl.
    rewrite lookup_insert_ne by lia. exact Hp.
  - exfalso. apply Hne. unfold MainApp._plot_outlet, MainApp.open_plot.
    destruct (LivePlot.__init__ _ _ _ _ _ _ _). simpl.
    rewrite lookup_insert_ne by lia. exact Hp.
  - exfalso. apply Hne. unfold MainApp._start_sim.
    destruct (UniSimConnector.connected _); [| exact Hp].
    unfold UniSimConnector.start.
    destruct (set_running_frame w 1 a) as (-> & _). exact Hp.
  - exfalso. apply Hne. unfold MainApp._stop_sim.
    destruct (UniSimConnector.connected _); [| exact Hp].
    unfold UniSimConnector.stop.
    destruct (set_running_frame w 0 a) as (-> & _). exact Hp.
  - exfalso. apply Hne. destruct (layout_frame w cw ch png a) as (_ & -> & _). exact Hp.
  - left. exists id. split; [reflexivity |].
    destruct (timers (MainApp.sys a) !! id) as [k' |] eqn:Hid; [| done].
    destruct (decide (k' = k)) as [-> | Hnk]; [reflexivity |].
    exfalso. apply Hne. unfold MainApp.run_update. simpl.
    destruct (MainApp.plots a !! k') as [q |]; [| exact Hp].
    destruct (LivePlot._update _ _ _ _ _). simpl.
    rewrite lookup_insert_ne by done. exact Hp.
  - right. left. destruct (decide (k' = k)) as [-> | Hnk]; [eauto |].
    exfalso. apply Hne. destruct (MainApp.plots a !! k'); [| exact Hp].
    simpl. rewrite lookup_insert_ne by done. exact Hp.
  - right. right. destruct (decide (k' = k)) as [-> | Hnk]; [reflexivity |].
    exfalso. apply Hne. destruct (MainApp.plots a !! k'); [| exact Hp].
    simpl. rewrite lookup_delete_ne by done. exact Hp.
Qed.

Lemma window_changes_only_by_its_own_events_witness :
  exists id, Timer 0 = Timer id /\
    timers (MainApp.sys (run w_ok [Click btn_inlet; Click btn_outlet])) !! id = Some 0.
Proof.
  destruct (window_changes_only_by_its_own_events w_ok [Click btn_inlet; Click btn_outlet]
              (Timer 0) 0
              (fst (LivePlot.__init__ w_ok (MainApp.us (run w_ok [])) 0
                      "Inlet Pressure(kPa)" us_inlet_pressure us_sim_time
                      (MainApp.sys (run w_ok [])))))
    as [Ht | [[v Hs] | Hc]].
  - vm_compute. reflexivity.
  - vm_compute. discriminate.
  - exact Ht.
  - discriminate Hs.
  - discriminate Hc.
Defined.

(** ** The slider *)




(** ** The start and stop buttons *)

Lemma connected_has_sim w evs :
  UniSimConnector.connected (MainApp.us (run w evs)) = true ->
  UniSimConnector.sim (MainApp.us (run w evs)) = Some (SIM_PATH w).
Proof.
  rewrite (inv_us _ _ (Inv_run w evs)).
  destruct (init_fields w) as (-> & _).
  destruct (connector_init_spec w (emit (Tk "UniSim Live Pressure Viewer") (boot w)))
    as (_ & _ & _ & _ & _ & _ & Hfull & _).
  intros Hc. destruct (Hfull Hc) as (_ & ->). reflexivity.
Qed.

(** X1. A click on "Start Sim" ("Stop Sim") never touches a chart, a
    callback or the canvas.  Without a connection it shows the "Demo" notice
    and makes no automation call.  With one it makes the single call that
    sets [IsRunning] to 1 (to 0) and shows nothing; if that call raises, Tk
    reports the exception.  The attribute [sim] is never missing there. *)
Theorem start_stop_buttons :
  forall (w : World) (evs : list event) (starting : bool),
    let b := if starting then btn_start else btn_stop in
    let v := if starting then 1%Z else 0%Z in
    let a := run w evs in
    let a' := step w (Click b) a in
    MainApp.plots a' = MainApp.plots a /\
    MainApp.canvas a' = MainApp.canvas a /\
    MainApp.us a' = MainApp.us a /\
    timers (MainApp.sys a') = timers (MainApp.sys a) /\
    (UniSimConnector.connected (MainApp.us a) = false ->
       MainApp.sys a' =
         emit (showinfo "Demo" "UniSim not connected – demo only.") (MainApp.sys a)) /\
    (UniSimConnector.connected (MainApp.us a) = true ->
       match com_step w (ncom (MainApp.sys a)) (SetIsRunning v) with
       | None => MainApp.sys a' = called (SetIsRunning v) (MainApp.sys a)
       | Some msg =>
           MainApp.sys a' =
             emit (callback_exception msg) (called (SetIsRunning v) (MainApp.sys a))
       end).
Proof.
  intros w evs starting b v a a'.
  pose proof (connected_has_sim w evs) as Hsim. fold a in Hsim.
  assert (Ha' : a' = if UniSimConnector.connected (MainApp.us a)
                     then MainApp.callback
                            (UniSimConnector.set_running w (MainApp.us a) v (MainApp.sys a)) a
                     else MainApp.demo_only a).
  { subst a' b v. destruct starting; reflexivity. }
  rewrite Ha'. unfold UniSimConnector.set_running, com_do.
  destruct (UniSimConnector.connected (MainApp.us a)) eqn:Hc.
  - rewrite (Hsim eq_refl).
    destruct (com_step w (ncom (MainApp.sys a)) (SetIsRunning v)); simpl;
      repeat split; done.
  - simpl. repeat split; done.
Qed.

(** ** Without a simulation case *)

Lemma poll_without_sim w us p s :
  UniSimConnector.sim us = None -> LivePlot.t_get p = us_sim_time ->
  LivePlot.poll w us p s = (Raises (UniSimConnector.no_attribute "sim"), s).
Proof.
  intros Hsim Ht. unfold LivePlot.poll. rewrite Ht. simpl.
  unfold UniSimConnector.sim_time. rewrite Hsim. reflexivity.
Qed.

Lemma sim_none_not_connected w :
  UniSimConnector.sim (MainApp.us (MainApp.__init__ w (boot w))) = None ->
  UniSimConnector.connected (MainApp.us (MainApp.__init__ w (boot w))) = false.
Proof.
  destruct (init_fields w) as (-> & _).
  destruct (connector_init_spec w (emit (Tk "UniSim Live Pressure Viewer") (boot w)))
    as (_ & _ & _ & _ & _ & _ & Hfull & _).
  intros Hsim.
  destruct (UniSimConnector.connected _) eqn:Hc; [| reflexivity].
  destruct (Hfull eq_refl) as (_ & Hrec). rewrite Hrec in Hsim. discriminate.
Qed.

Lemma idle_step w e a :
  UniSimConnector.sim (MainApp.us (MainApp.__init__ w (boot w))) = None ->
  Inv w a -> idle_app w a -> idle_app w (step w e a).
Proof.
  intros Hsim H [Hpl Ht Hc].
  assert (Hsim' : UniSimConnector.sim (MainApp.us a) = None)
    by (rewrite (inv_us _ _ H); exact Hsim).
  assert (Hcon : UniSimConnector.connected (MainApp.us a) = false)
    by (rewrite (inv_us _ _ H); apply sim_none_not_connected, Hsim).
  destruct (entry w e a) as [[[k p] s0] |] eqn:He.
  - destruct (entry_window _ _ _ _ _ _ H He) as (Hok & Ht0 & _ & _ & Hwhich).
    destruct Hwhich as [(b & -> & Hb & -> & Hnone & Hx & Hy & _) | (id & _ & Hid & _)];
      [| rewrite Ht, lookup_empty in Hid; discriminate].
    destruct (update_raises w a (Click b) (MainApp.next_win a) p s0
                (UniSimConnector.no_attribute "sim") s0 He)
      as (Hplots & Hsys).
    { apply poll_without_sim; [exact Hsim' | apply Hok]. }
    assert (Hp : p = LivePlot.fresh (LivePlot.title p) (LivePlot.y_get p) us_sim_time /\
                 s0 = emit (Toplevel (MainApp.next_win a) (LivePlot.title p)) (MainApp.sys a)).
    { destruct Hb as [-> | ->]; simpl in He; inversion He; subst; done. }
    destruct Hp as (Hp & Hs0).
    split.
    + intros k' p'. rewrite Hplots. intros Hk'.
      apply lookup_insert_Some in Hk' as [[_ <-] | [_ Hk']]; [| eapply Hpl, Hk'].
      rewrite Hp. simpl. done.
    + rewrite Hsys, Hs0. simpl. exact Ht.
    + rewrite Hsys, Hs0. simpl. rewrite !coms_app. simpl. rewrite !app_nil_r. exact Hc.
  - destruct (step_no_entry _ _ _ He) as (Hplots & Htimers & _).
    split.
    + intros k p Hk. destruct (Hplots _ _ Hk) as (q & Hq & [-> | [v ->]]);
        apply (Hpl _ _ Hq).
    + apply map_eq. intros id. rewrite lookup_empty.
      destruct (timers (MainApp.sys (step w e a)) !! id) as [k |] eqn:Hid; [| done].
      apply Htimers in Hid. rewrite Ht, lookup_empty in Hid. discriminate.
    + rewrite <- Hc. clear Hc.
      destruct e as [[] | cw ch png | id | k v | k]; simpl in *; try discriminate.
      * unfold MainApp._start_sim. rewrite Hcon. simpl.
        rewrite coms_app. simpl. apply app_nil_r.
      * unfold MainApp._stop_sim. rewrite Hcon. simpl.
        rewrite coms_app. simpl. apply app_nil_r.
      * destruct (layout_frame w cw ch png a) as (_ & _ & _ & ->). reflexivity.
      * rewrite Ht, lookup_empty. reflexivity.
      * destruct (MainApp.plots a !! k); reflexivity.
      * destruct (MainApp.plots a !! k) as [p |] eqn:Hp; [| reflexivity]. simpl.
        destruct (Hpl _ _ Hp) as (_ & _ & Hid & _).
        unfold LivePlot._on_close. rewrite Hid. simpl.
        rewrite coms_app. simpl. apply app_nil_r.
Qed.

Lemma idle_run w evs :
  UniSimConnector.sim (MainApp.us (MainApp.__init__ w (boot w))) = None ->
  idle_app w (run w evs).
Proof.
  intros Hsim. unfold run.
  assert (H0 : idle_app w (MainApp.__init__ w (boot w))).
  { destruct (init_fields w) as (_ & _ & Hplots & _). split.
    - intros k p. rewrite Hplots, lookup_empty. discriminate.
    - apply init_timers.
    - reflexivity. }
  assert (Hgen : forall a, Inv w a -> idle_app w a -> idle_app w (run_from w a evs)).
  { induction evs as [| e evs IH]; intros a H Hi; simpl; [done |].
    apply IH; [apply Inv_step, H | apply idle_step; done]. }
  apply Hgen; [apply Inv_init | exact H0].
Qed.

Lemma connector_sim_none w s :
  let us := fst (UniSimConnector.__init__ w s) in
  (win32com w = false -> UniSimConnector.sim us = None) /\
  (forall msg, com_step w (ncom s) (Dispatch UniSimConnector.PROGID) = Some msg ->
     UniSimConnector.sim us = None) /\
  (forall msg, com_step w (2 + ncom s) (SimulationCases_Open (SIM_PATH w)) = Some msg ->
     UniSimConnector.sim us = None).
Proof.
  unfold UniSimConnector.__init__.
  destruct (win32com w); simpl; [| done].
  unfold UniSimConnector.attempt, com_do. simpl.
  repeat split_step; repeat split; intros; simpl; congruence.
Qed.

(** X6. When the attribute [sim] was never assigned (pywin32 is missing,
    or the dispatch or the opening of the case raised) the program never
    reads the simulation: it is not connected, every chart that is opened
    answers with the "Data error" dialog about the missing attribute and
    stays empty without limits, no callback is ever queued, and no
    automation call is made after the constructor; without pywin32 none is
    made at all. *)
Theorem without_simulation_case_nothing_is_polled :
  forall (w : World) (evs : list event),
    let a0 := MainApp.__init__ w (boot w) in
    let a := run w evs in
    (win32com w = false ->
       UniSimConnector.sim (MainApp.us a0) = None /\ coms (trace (MainApp.sys a)) = []) /\
    (forall msg, com_step w 0 (Dispatch "UniSimDesign.Application") = Some msg ->
       UniSimConnector.sim (MainApp.us a0) = None) /\
    (forall msg, com_step w 2 (SimulationCases_Open (SIM_PATH w)) = Some msg ->
       UniSimConnector.sim (MainApp.us a0) = None) /\
    (UniSimConnector.sim (MainApp.us a0) = None ->
       UniSimConnector.connected (MainApp.us a) = false /\
       (forall k p, chart a k = Some p ->
          LivePlot.x p = [] /\ LivePlot.y p = [] /\ LivePlot._after_id p = None /\
          LivePlot.xlim p = None /\ LivePlot.ylim p = None) /\
       timers (MainApp.sys a) = ∅ /\
       coms (trace (MainApp.sys a)) = coms (trace (MainApp.sys a0)) /\
       forall b, b = btn_inlet \/ b = btn_outlet ->
         last (trace (MainApp.sys (step w (Click b) a))) =
           Some (showerror "Data error"
                   "'UniSimConnector' object has no attribute 'sim'") /\
         coms (trace (MainApp.sys (step w (Click b) a))) = coms (trace (MainApp.sys a0))).
Proof.
  intros w evs a0 a.
  destruct (init_fields w) as (Hus & _). fold a0 in Hus.
  destruct (connector_sim_none w (emit (Tk "UniSim Live Pressure Viewer") (boot w)))
    as (Hno & Hdisp & Hopen).
  rewrite <- Hus in Hno, Hdisp, Hopen.
  destruct (boot_fields w) as (Hn0 & _).
  change (ncom (emit _ (boot w))) with (ncom (boot w)) in Hdisp, Hopen.
  rewrite Hn0 in Hdisp, Hopen.
  split; [| split; [exact Hdisp | split; [exact Hopen |]]].
  - intros Hw. split; [apply Hno, Hw |].
    unfold a. rewrite (idle_coms _ _ (idle_run w evs (Hno Hw))), init_coms, Hw.
    reflexivity.
  - intros Hsim. pose proof (idle_run w evs Hsim) as Hidle. fold a in Hidle.
    pose proof (Inv_run w evs) as H. fold a in H.
    split; [rewrite (inv_us _ _ H); apply sim_none_not_connected, Hsim |].
    split; [apply Hidle |]. split; [apply Hidle |]. split; [apply Hidle |].
    intros b Hb.
    assert (Hidle' : idle_app w (step w (Click b) a)) by (apply idle_step; done).
    split; [| apply Hidle'].
    assert (He : exists p s0, entry w (Click b) a = Some (MainApp.next_win a, p, s0))
      by (destruct Hb as [-> | ->]; simpl; eauto).
    destruct He as (p & s0 & He).
    destruct (entry_window _ _ _ _ _ _ H He) as (Hok & _).
    destruct (update_raises w a (Click b) (MainApp.next_win a) p s0
                (UniSimConnector.no_attribute "sim") s0 He) as (_ & ->).
    { apply poll_without_sim; [rewrite (inv_us _ _ H); exact Hsim | apply Hok]. }
    apply last_snoc.
Qed.

Lemma without_simulation_case_nothing_is_polled_witness :
  coms (trace (MainApp.sys (run w_demo [Click btn_inlet; Click btn_start; Click btn_outlet])))
    = [] /\
  timers (MainApp.sys (run w_demo [Click btn_inlet; Click btn_start; Click btn_outlet])) = ∅.
Proof.
  destruct (without_simulation_case_nothing_is_polled w_demo
              [Click btn_inlet; Click btn_start; Click btn_outlet])
    as (Hdemo & _ & _ & Hidle).
  destruct (Hdemo eq_refl) as (Hsim & Hc).
  destruct (Hidle Hsim) as (_ & _ & Ht & _).
  split; [exact Hc | exact Ht].
Defined.

(** ** A case without the stream "Outlet" *)




(** ** Samples stay paired *)

Lemma deque_append_zip {A B} n (xs : list A) (ys : list B) t v :
  length xs = length ys ->
  zip (deque_append n xs t) (deque_append n ys v) = deque_append n (zip xs ys) (t, v).
Proof.
  intros Hlen. unfold deque_append.
  rewrite !length_app, length_zip_with, <- Hlen, Nat.min_id. simpl.
  assert (Hz : zip (xs ++ [t]) (ys ++ [v]) = zip xs ys ++ [(t, v)])
    by (rewrite zip_with_app by done; reflexivity).
  destruct (n <? length xs + 1)%nat.
  - rewrite <- Hz. symmetry. apply zip_with_drop.
  - exact Hz.
Qed.

(** X8. The two buffers of a chart move together: an update that reads
    both values appends the pair of them to the series of (time, pressure)
    pairs, dropping the oldest pair of a full series, so the i-th time
    always belongs to the i-th pressure. *)
Theorem samples_stay_paired :
  forall (w : World) (evs : list event) (e : event) (k : nat) (p : LivePlot.t)
         (s0 s1 : Sys) (t_val y_val : float),
    let a := run w evs in
    entry w e a = Some (k, p, s0) ->
    LivePlot.poll w (MainApp.us a) p s0 = (Returns (t_val, y_val), s1) ->
    exists p',
      chart (step w e a) k = Some p' /\
      zip (LivePlot.x p') (LivePlot.y p') =
        deque_append MAX_POINTS (zip (LivePlot.x p) (LivePlot.y p)) (t_val, y_val) /\
      last (zip (LivePlot.x p') (LivePlot.y p')) = Some (t_val, y_val) /\
      (forall i tv, zip (LivePlot.x p) (LivePlot.y p) !! S i = Some tv ->
                    length (LivePlot.x p) = MAX_POINTS ->
                    zip (LivePlot.x p') (LivePlot.y p') !! i = Some tv) /\
      (forall i tv, zip (LivePlot.x p) (LivePlot.y p) !! i = Some tv ->
                    length (LivePlot.x p) < MAX_POINTS ->
                    zip (LivePlot.x p') (LivePlot.y p') !! i = Some tv).
Proof.
  intros w evs e k p s0 s1 t_val y_val a He Hp.
  pose proof (Inv_run w evs) as H. fold a in H.
  destruct (update_returns _ _ _ _ _ _ _ _ _ H He Hp) as (_ & _ & _ & _ & _ & Hk & _).
  destruct (entry_window _ _ _ _ _ _ H He) as (Hok & _).
  pose proof (ok_len _ Hok) as Hlen. pose proof (ok_max _ Hok) as Hmax.
  eexists. split; [exact Hk |].
  destruct (redraw_spec (numpy w) k p t_val y_val s1) as (? & ? & _ & ->).
  cbn [fst LivePlot.x LivePlot.y].
  rewrite (deque_append_zip MAX_POINTS) by exact Hlen.
  assert (Hzl : length (zip (LivePlot.x p) (LivePlot.y p)) = length (LivePlot.x p))
    by (rewrite length_zip_with; lia).
  split; [reflexivity |].
  split; [apply deque_append_last, max_points_pos |].
  split.
  - intros i tv Hi Hfull.
    rewrite deque_append_drop by lia. rewrite Hzl, Hfull.
    replace (S MAX_POINTS - MAX_POINTS) with 1 by lia.
    rewrite lookup_drop. simpl. apply lookup_app_l_Some. exact Hi.
  - intros i tv Hi Hroom.
    rewrite deque_append_drop by lia. rewrite Hzl.
    replace (S (length (LivePlot.x p)) - MAX_POINTS) with 0 by lia.
    rewrite drop_0. apply lookup_app_l_Some. exact Hi.
Qed.

Lemma samples_stay_paired_witness :
  exists p', chart (step w_ok (Timer 0) (run w_ok [Click btn_inlet])) 0 = Some p' /\
    zip (LivePlot.x p') (LivePlot.y p') =
      [(F.of_int 107, F.of_int 108); (F.of_int 109, F.of_int 110)].
Proof.
  destruct (samples_stay_paired w_ok [Click btn_inlet] (Timer 0) 0
              (fst (LivePlot.__init__ w_ok (MainApp.us (run w_ok [])) 0
                      "Inlet Pressure(kPa)" us_inlet_pressure us_sim_time
                      (MainApp.sys (run w_ok []))))
              (tk_take 0 (MainApp.sys (run w_ok [Click btn_inlet])))
              (called (PressureValue "Inlet")
                 (called GetTime (tk_take 0 (MainApp.sys (run w_ok [Click btn_inlet])))))
              (F.of_int 109) (F.of_int 110))
    as (p' & Hk & Hz & _).
  - vm_compute. reflexivity.
  - vm_compute. reflexivity.
  - exists p'. split; [exact Hk |]. rewrite Hz. vm_compute. reflexivity.
Defined.

(** ** The window at the start of the simulation *)

Lemma round_aux_not_positive prec emax m e l :
  F.gtb (binary_round_aux prec emax true m e l) F.zero = false.
Proof.
  unfold binary_round_aux.
  destruct (shr_fexp prec emax m e l) as [mrs' e'].
  destruct (shr_fexp prec emax _ e' loc_Exact) as [mrs'' e''].
  destruct (shr_m mrs''); [reflexivity | | reflexivity].
  destruct (_ <=? _)%Z; reflexivity.
Qed.

Lemma round_not_positive prec emax m e :
  F.gtb (binary_round prec emax true m e) F.zero = false.
Proof.
  unfold binary_round. destruct (shl_align _ _ _). apply round_aux_not_positive.
Qed.

Lemma to_f32_not_positive v :
  F.gtb v F.zero = false -> F.gtb (F.to_f32 v) F.zero = false.
Proof.
  destruct v as [s | s | | s m e]; try done.
  destruct s; [| discriminate]. intros _. apply round_not_positive.
Qed.

Lemma weak_sixty r : exists m e, np.weak r LivePlot.sixty = S754_finite false m e.
Proof. destruct r; vm_compute; eauto. Qed.

Lemma sub_sixty_not_positive r v :
  F.gtb v F.zero = false -> F.gtb (np.sub r v LivePlot.sixty) F.zero = false.
Proof.
  intros Hv. unfold np.sub. destruct (weak_sixty r) as (m60 & e60 & ->).
  destruct v as [s | s | | s m e]; [destruct s; done | destruct s; done | done |].
  destruct s; [| discriminate]. unfold SFsub.
  destruct (shl_align m e _) as [a ea]. destruct (shl_align m60 e60 _) as [b eb].
  simpl. apply round_not_positive.
Qed.

(** X10. When the time read is not positive (zero at the start of a
    simulation, or negative, or not a number) the x-axis limits are exactly
    0 and 60. *)
Theorem nonpositive_time_window :
  forall (w : World) (evs : list event) (e : event) (k : nat) (p : LivePlot.t)
         (s0 s1 : Sys) (t_val y_val : float),
    let a := run w evs in
    entry w e a = Some (k, p, s0) ->
    LivePlot.poll w (MainApp.us a) p s0 = (Returns (t_val, y_val), s1) ->
    F.gtb t_val F.zero = false ->
    exists p' hi,
      chart (step w e a) k = Some p' /\
      set_xlim k F.zero hi ∈ trace (MainApp.sys (step w e a)) /\
      F.to_f64 hi = F.of_int 60 /\
      LivePlot.xlim p' = Some (F.zero, F.of_int 60).
Proof.
  intros w evs e k p s0 s1 t_val y_val a He Hp Ht.
  pose proof (Inv_run w evs) as H. fold a in H.
  destruct (update_returns _ _ _ _ _ _ _ _ _ H He Hp) as (_ & _ & _ & _ & _ & Hk & Hsys).
  assert (Hw : LivePlot.x_window (numpy w) (F.to_f32 t_val) =
               (F.zero, np.add (numpy w) F.zero LivePlot.sixty)).
  { unfold LivePlot.x_window.
    destruct (py_max0_cases (np.sub (numpy w) (F.to_f32 t_val) LivePlot.sixty))
      as [[Hgt _] | [_ ->]]; [| reflexivity].
    rewrite sub_sixty_not_positive in Hgt by (apply to_f32_not_positive, Ht).
    discriminate. }
  exists (fst (LivePlot.redraw (numpy w) k p t_val y_val s1)),
         (np.add (numpy w) F.zero LivePlot.sixty).
  split; [exact Hk |]. rewrite Hsys.
  destruct (redraw_spec (numpy w) k p t_val y_val s1) as (? & ? & _ & ->).
  rewrite Hw. cbn [fst snd LivePlot.xlim trace].
  split; [apply elem_of_app; right; apply elem_of_cons; left; reflexivity |].
  split; [apply add_zero_sixty |].
  rewrite add_zero_sixty. reflexivity.
Qed.

Lemma nonpositive_time_window_witness :
  exists p', chart (run (w_at Legacy F.zero (F.of_int 5)) [Click btn_inlet]) 0 = Some p' /\
             LivePlot.xlim p' = Some (F.zero, F.of_int 60).
Proof.
  destruct (nonpositive_time_window (w_at Legacy F.zero (F.of_int 5)) []
              (Click btn_inlet) 0
              (LivePlot.fresh "Inlet Pressure(kPa)" us_inlet_pressure us_sim_time)
              (emit (Toplevel 0 "Inlet Pressure(kPa)")
                 (MainApp.sys (run (w_at Legacy F.zero (F.of_int 5)) [])))
              (called (PressureValue "Inlet")
                 (called GetTime
                    (emit (Toplevel 0 "Inlet Pressure(kPa)")
                       (MainApp.sys (run (w_at Legacy F.zero (F.of_int 5)) [])))))
              F.zero (F.of_int 5))
    as (p' & hi & Hk & _ & _ & Hx).
  - vm_compute. reflexivity.
  - vm_compute. reflexivity.
  - reflexivity.
  - exists p'. split; [exact Hk | exact Hx].
Defined.

(** ** Successive layout passes *)

(** X11. The placement depends on the last layout pass on a canvas of
    at least 10 by 10 only: after two passes the image, the display list
    and the coordinates of all five items are those the second pass alone
    would give, and when the second canvas is too small those of the first
    pass stay.  A layout pass makes no automation call, shows no dialog and
    touches neither a chart nor a pending callback. *)
Theorem layout_last_pass_wins :
  forall (w : World) (evs : list event) (cw1 ch1 cw2 ch2 : Z) (png1 png2 : bool),
    let a := run w evs in
    let a1 := step w (Configure cw1 ch1 png1) a in
    let a2 := step w (Configure cw2 ch2 png2) a1 in
    let b := step w (Configure cw2 ch2 png2) a in
    ((10 <= cw2)%Z /\ (10 <= ch2)%Z ->
       Canvas.shown (MainApp.canvas a2) = Canvas.shown (MainApp.canvas b) /\
       MainApp.bg_img a2 = MainApp.bg_img b /\
       Canvas.display (MainApp.canvas a2) = Canvas.display (MainApp.canvas b) /\
       forall it, Canvas.position (MainApp.canvas a2) it =
                  Canvas.position (MainApp.canvas b) it) /\
    ((cw2 < 10)%Z \/ (ch2 < 10)%Z -> a2 = a1) /\
    MainApp.sys a2 = MainApp.sys a /\ MainApp.plots a2 = MainApp.plots a /\
    MainApp.us a2 = MainApp.us a.
Proof.
  intros w evs cw1 ch1 cw2 ch2 png1 png2 a a1 a2 b.
  pose proof (Inv_run w evs) as H. fold a in H.
  pose proof (inv_display _ _ H) as Hd.
  subst a2 b a1. simpl. unfold MainApp._layout.
  split; [| split].
  - intros [Hw Hh].
    destruct (Z.ltb_spec cw2 10); [lia |]. destruct (Z.ltb_spec ch2 10); [lia |].
    destruct ((cw1 <? 10) || (ch1 <? 10))%Z; simpl; rewrite Hd; simpl;
      repeat split; intros []; reflexivity.
  - intros Hsmall.
    assert (Hc : ((cw2 <? 10) || (ch2 <? 10))%Z = true).
    { apply orb_true_iff. destruct Hsmall; [left | right]; apply Z.ltb_lt; done. }
    rewrite Hc. reflexivity.
  - destruct ((cw2 <? 10) || (ch2 <? 10))%Z, ((cw1 <? 10) || (ch1 <? 10))%Z; done.
Qed.

Lemma layout_last_pass_wins_witness :
  Canvas.position
    (MainApp.canvas (step w_ok (Configure 880 520 true)
                       (step w_ok (Configure 400 300 true) (run w_ok []))))
    Canvas.id_stop = (F.of_int 176, F.of_int 468).
Proof.
  destruct (layout_last_pass_wins w_ok [] 400 300 880 520 true true)
    as (Hbig & _).
  destruct Hbig as (_ & _ & _ & Hpos); [lia |].
  rewrite Hpos. vm_compute. reflexivity.
Defined.

(** ** One main window *)

(** X12. On Windows the script always reaches the main loop, whatever the
    connector met, and in every state of the run exactly one main window has
    been created: it comes after the module-level output, before every
    automation call, and no event creates another. *)
Theorem one_main_window :
  forall (w : World) (evs : list event),
    platform w = "win32" ->
    main w evs = mainloop (run w evs) /\
    exists l,
      trace (MainApp.sys (run w evs)) =
        trace (boot w) ++ Tk "UniSim Live Pressure Viewer" :: l /\
      (forall ttl, Tk ttl ∉ l) /\
      (forall ttl, Tk ttl ∉ trace (boot w)) /\
      (forall c, Com c ∉ trace (boot w)).
Proof.
  intros w evs Hp. split.
  - unfold main, run. rewrite Hp. reflexivity.
  - destruct (inv_trace _ _ (Inv_run w evs)) as (l2 & -> & HF2).
    destruct (init_fields w) as (_ & -> & _).
    destruct (connector_init_spec w (emit (Tk "UniSim Live Pressure Viewer") (boot w)))
      as (_ & _ & _ & _ & (l1 & -> & HF1) & _).
    destruct (boot_fields w) as (_ & _ & _ & _ & HF0).
    rewrite Forall_forall in HF0, HF1, HF2.
    exists (l1 ++ l2). simpl. rewrite <- !app_assoc. simpl.
    split; [reflexivity |].
    split; [| split].
    + intros ttl Hin. apply elem_of_app in Hin as [Hin | Hin].
      * apply HF1 in Hin. exact Hin.
      * apply HF2 in Hin. exact Hin.
    + intros ttl Hin. apply HF0 in Hin. exact Hin.
    + intros c Hin. apply HF0 in Hin. exact Hin.
Qed.

Lemma one_main_window_witness :
  main w_partial [Click btn_outlet] = mainloop (run w_partial [Click btn_outlet]).
Proof.
  destruct (one_main_window w_partial [Click btn_outlet]) as (Hm & _).
  - reflexivity.
  - exact Hm.
Defined.

(** ** The effects of one update *)


